(** * routes.go: an HTTP request router

    A shallow embedding of the router of [routes.go] (pattern compilation in
    [AddRoute], the dispatch loop of [ServeHTTP], the OPTIONS aggregation of
    [optionsRequest], the [responseWriter] wrapper, the [Static] registrant
    and the [ServeFormatted] helper), together with models of the parts of
    the Go standard library the router calls ([strings], [sort], [strconv],
    [net/url], [net/http], [regexp], [path/filepath]).

    Go strings are byte sequences: [string] (a list of [ascii]) is used for
    them, [String.length] is Go's [len]. Go [int]s are [Z]; every integer
    that occurs is a length or a status code, far from the word size. *)

From Stdlib Require Import Ascii List Bool Arith ZArith Lia Sorted Permutation.
From Stdlib Require String DecimalString.
From stdpp Require Import gmap strings list fin_maps.

Local Open Scope Z_scope.

(** ** Package [strings] *)

Module GoStrings.

(** [len(s)] *)
Definition len (s : string) : Z := Z.of_nat (String.length s).

(** [strings.HasPrefix(s, prefix)] *)
Fixpoint HasPrefix (s prefix : string) {struct prefix} : bool :=
  match prefix with
  | EmptyString => true
  | String a prefix' =>
      match s with
      | EmptyString => false
      | String b s' => Ascii.eqb a b && HasPrefix s' prefix'
      end
  end.

(** [strings.Index(s, substr)]: the index of the first occurrence of
    [substr] in [s], or [-1]. *)
Fixpoint Index (s substr : string) : Z :=
  if HasPrefix s substr then 0
  else match s with
       | EmptyString => -1
       | String _ s' => let r := Index s' substr in
                        if r <? 0 then -1 else r + 1
       end.

(** [strings.Contains(s, substr)] *)
Definition Contains (s substr : string) : bool := 0 <=? Index s substr.

(** The slices [s[:n]] and [s[n:]]. *)
Fixpoint take (n : nat) (s : string) : string :=
  match n, s with
  | S n', String a s' => String a (take n' s')
  | _, _ => EmptyString
  end.

Fixpoint drop (n : nat) (s : string) : string :=
  match n, s with
  | S n', String _ s' => drop n' s'
  | _, _ => s
  end.

Definition slice_to (s : string) (i : Z) : string := take (Z.to_nat i) s.
Definition slice_from (s : string) (i : Z) : string := drop (Z.to_nat i) s.

(** [strings.Split(s, sep)] for a one-byte separator: the substrings
    between the separators, [[s]] when there is none. *)
Fixpoint Split (s : string) (sep : ascii) : list string :=
  match s with
  | EmptyString => [EmptyString]
  | String a s' =>
      if Ascii.eqb a sep then EmptyString :: Split s' sep
      else match Split s' sep with
           | h :: t => String a h :: t
           | [] => [String a EmptyString]
           end
  end.

(** [strings.Join(elems, sep)] *)
Fixpoint Join (elems : list string) (sep : string) : string :=
  match elems with
  | [] => EmptyString
  | [e] => e
  | e :: rest => e +:+ sep +:+ Join rest sep
  end.

(** [strings.Cut(s, sep)] for a one-byte separator: the text before and
    after the first separator, the whole of [s] and [""] without one. *)
Fixpoint Cut (s : string) (sep : ascii) : string * string :=
  match s with
  | EmptyString => (EmptyString, EmptyString)
  | String a s' =>
      if Ascii.eqb a sep then (EmptyString, s')
      else let '(b, r) := Cut s' sep in (String a b, r)
  end.

End GoStrings.

(** ** Package [strconv] *)

Module strconv.
(** [strconv.Itoa]: the decimal text of an integer. *)
Definition Itoa (i : Z) : string :=
  DecimalString.NilZero.string_of_int (Z.to_int i).
End strconv.

(** ** Package [sort] *)

Module GoSort.

(** Go compares strings byte-wise; so does [String.leb]. *)
Fixpoint insert (x : string) (l : list string) : list string :=
  match l with
  | [] => [x]
  | y :: l' => if String.leb x y then x :: l else y :: insert x l'
  end.

(** [sort.Strings]: the list in increasing order. Equal strings cannot be
    told apart, so every sorting algorithm returns this list. *)
Fixpoint Strings (l : list string) : list string :=
  match l with
  | [] => []
  | x :: l' => insert x (Strings l')
  end.

End GoSort.

(** ** Package [net/url]: query strings *)

Module url.
Import GoStrings.

(** [url.Values], a [map[string][]string]. *)
Abbreviation Values := (gmap string (list string)).

Definition byte_in (lo hi c : ascii) : bool :=
  (N_of_ascii lo <=? N_of_ascii c)%N && (N_of_ascii c <=? N_of_ascii hi)%N.

(** [shouldEscape(c, encodeQueryComponent)]: everything but the
    unreserved characters is escaped. *)
Definition shouldEscape (c : ascii) : bool :=
  if byte_in "a" "z" c || byte_in "A" "Z" c || byte_in "0" "9" c then false
  else match c with
       | "-" | "_" | "." | "~" => false
       | _ => true
       end%char.

Definition upperhex (n : N) : ascii :=
  match n with
  | 0 => "0" | 1 => "1" | 2 => "2" | 3 => "3" | 4 => "4" | 5 => "5"
  | 6 => "6" | 7 => "7" | 8 => "8" | 9 => "9" | 10 => "A" | 11 => "B"
  | 12 => "C" | 13 => "D" | 14 => "E" | _ => "F"
  end%N%char.

Definition ishex (c : ascii) : bool :=
  byte_in "0" "9" c || byte_in "a" "f" c || byte_in "A" "F" c.

Definition unhex (c : ascii) : N :=
  if byte_in "0" "9" c then N_of_ascii c - N_of_ascii "0"
  else if byte_in "a" "f" c then N_of_ascii c - N_of_ascii "a" + 10
  else if byte_in "A" "F" c then N_of_ascii c - N_of_ascii "A" + 10
  else 0.

(** [url.QueryEscape] *)
Fixpoint QueryEscape (s : string) : string :=
  match s with
  | EmptyString => EmptyString
  | String c s' =>
      if shouldEscape c then
        if Ascii.eqb c " " then String "+" (QueryEscape s')
        else String "%"
               (String (upperhex (N_of_ascii c / 16))
                  (String (upperhex (N_of_ascii c mod 16)) (QueryEscape s')))
      else String c (QueryEscape s')
  end.

(** [url.QueryUnescape]; [None] is the [EscapeError] of a ['%'] that is not
    followed by two hexadecimal digits. *)
Fixpoint QueryUnescape (s : string) : option string :=
  match s with
  | EmptyString => Some EmptyString
  | String c s' =>
      if Ascii.eqb c "%" then
        match s' with
        | String a (String b rest) =>
            if ishex a && ishex b then
              String (ascii_of_N (unhex a * 16 + unhex b)) <$> QueryUnescape rest
            else None
        | _ => None
        end
      else if Ascii.eqb c "+" then String " " <$> QueryUnescape s'
      else String c <$> QueryUnescape s'
  end.

(** [Values.Add]: append to the values of the key. *)
Definition Add (key value : string) (v : Values) : Values :=
  <[key := default [] (v !! key) ++ [value]]> v.

(** [Values.Get]: the first value of the key, or [""]. *)
Definition Get (key : string) (v : Values) : string :=
  match v !! key with
  | Some (x :: _) => x
  | _ => EmptyString
  end.

(** [Values.Encode]: ["k=v"] pairs, escaped, by increasing key, joined by
    ['&']. *)
Definition Encode (v : Values) : string :=
  Join (flat_map (fun k => map (fun x => QueryEscape k +:+ "=" +:+ QueryEscape x)
                             (default [] (v !! k)))
          (GoSort.Strings (map fst (map_to_list v))))
       "&".

(** One iteration of the loop of [url.parseQuery]: a pair with a
    semicolon, an empty pair and a pair whose key or value does not
    unescape are skipped. *)
Definition parsePair (m : Values) (pair : string) : Values :=
  if Contains pair ";" then m
  else if String.eqb pair "" then m
  else let '(key, value) := Cut pair "=" in
       match QueryUnescape key with
       | None => m
       | Some key' =>
           match QueryUnescape value with
           | None => m
           | Some value' => Add key' value' m
           end
       end.

(** [url.ParseQuery], the values only (the first error, which [URL.Query]
    drops, is not returned). *)
Definition ParseQuery (query : string) : Values :=
  fold_left parsePair (Split query "&") ∅.

Record URL := mkURL { Path : string; RawQuery : string }.

(** [URL.Query] *)
Definition Query (u : URL) : Values := ParseQuery (RawQuery u).

End url.

(** ** Package [net/http] *)

Module http.

(** [http.Header], with keys in canonical form (every key the router
    sets is canonical already). *)
Abbreviation Header := (gmap string (list string)).

Definition Set_ (key value : string) (h : Header) : Header := <[key := [value]]> h.

Definition Get (key : string) (h : Header) : string :=
  match h !! key with
  | Some (x :: _) => x
  | _ => EmptyString
  end.

Definition StatusOK : Z := 200.
Definition StatusNotFound : Z := 404.
Definition StatusInternalServerError : Z := 500.

(** The interface [http.ResponseWriter]. [Header()] returns a reference to
    the writer's header map: [Header] reads that map and [updHeader]
    changes it in place. The results of [Write] are dropped, as every
    caller in the router drops them. *)
Class ResponseWriter (W : Type) := {
  Header_ : W -> Header;
  updHeader : (Header -> Header) -> W -> W;
  Write : string -> W -> W;
  WriteHeader : Z -> W -> W
}.

(** The server's own writer (type [response] of net/http), as far as the
    router can tell. The first [WriteHeader] with a final status sends the
    status line and the header map as it is at that moment; a later
    [WriteHeader] is ignored; an informational status (1xx, but for 101)
    is sent at once with the header map and leaves the response open; the
    first [Write] sends status 200 when no status was sent; changing the
    header map after the header was sent has no effect on the response.
    [sentStatus], [sentHeader] and [sentBody] are what went out for the
    handler. Not modelled: the headers the server adds on its own ([Date],
    and [Content-Length] or [Content-Type] when the handler set none); the
    refusal of a write that exceeds a declared [Content-Length]; the body
    of a HEAD request, which the server drops; the panic on a status code
    below 100 or above 999. *)
Record response := mkResponse {
  handlerHeader : Header;
  wroteHeader : bool;
  sentInformational : list (Z * Header);
  sentStatus : Z;
  sentHeader : Header;
  sentBody : string
}.

Definition newResponse : response :=
  {| handlerHeader := ∅; wroteHeader := false; sentInformational := [];
     sentStatus := 0; sentHeader := ∅; sentBody := EmptyString |}.

Definition informational (code : Z) : bool :=
  (100 <=? code) && (code <=? 199) && negb (code =? 101).

(** [bodyAllowedForStatus] *)
Definition bodyAllowedForStatus (status : Z) : bool :=
  negb ((100 <=? status) && (status <=? 199) || (status =? 204) || (status =? 304)).

Definition response_WriteHeader (code : Z) (w : response) : response :=
  if wroteHeader w then w
  else if informational code then
    {| handlerHeader := handlerHeader w; wroteHeader := false;
       sentInformational := sentInformational w ++ [(code, handlerHeader w)];
       sentStatus := sentStatus w; sentHeader := sentHeader w;
       sentBody := sentBody w |}
  else
    {| handlerHeader := handlerHeader w; wroteHeader := true;
       sentInformational := sentInformational w;
       sentStatus := code; sentHeader := handlerHeader w;
       sentBody := sentBody w |}.

Definition response_Write (p : string) (w : response) : response :=
  let w' := if wroteHeader w then w else response_WriteHeader StatusOK w in
  if bodyAllowedForStatus (sentStatus w') then
    {| handlerHeader := handlerHeader w'; wroteHeader := wroteHeader w';
       sentInformational := sentInformational w';
       sentStatus := sentStatus w'; sentHeader := sentHeader w';
       sentBody := sentBody w' +:+ p |}
  else w'.

Definition response_updHeader (f : Header -> Header) (w : response) : response :=
  {| handlerHeader := f (handlerHeader w); wroteHeader := wroteHeader w;
     sentInformational := sentInformational w;
     sentStatus := sentStatus w; sentHeader := sentHeader w;
     sentBody := sentBody w |}.

#[global] Instance response_ResponseWriter : ResponseWriter response := {
  Header_ := handlerHeader;
  updHeader := response_updHeader;
  Write := response_Write;
  WriteHeader := response_WriteHeader
}.

(** [http.Error]: the [Content-Length] of other content is deleted, the
    two headers are set, the status is sent and [fmt.Fprintln(w, error)]
    makes one [Write] of the text and a newline. *)
Definition Error {W} `{ResponseWriter W} (w : W) (error : string) (code : Z) : W :=
  let w := updHeader (delete "Content-Length") w in
  let w := updHeader (Set_ "Content-Type" "text/plain; charset=utf-8") w in
  let w := updHeader (Set_ "X-Content-Type-Options" "nosniff") w in
  let w := WriteHeader code w in
  Write (error +:+ String "010" EmptyString) w.

(** [http.NotFound] *)
Definition NotFound {W} `{ResponseWriter W} (w : W) : W :=
  Error w "404 page not found" StatusNotFound.

(** [http.Request], the fields the router reads or writes. *)
Record Request := mkRequest {
  Method : string;
  URL : url.URL;
  Proto : string;
  ReqHeader : Header;
  RemoteAddr : string
}.

(** [r.URL.RawQuery = q] *)
Definition setRawQuery (q : string) (r : Request) : Request :=
  {| Method := Method r;
     URL := {| url.Path := url.Path (URL r); url.RawQuery := q |};
     Proto := Proto r; ReqHeader := ReqHeader r; RemoteAddr := RemoteAddr r |}.

Definition Referer (r : Request) : string := Get "Referer" (ReqHeader r).
Definition UserAgent (r : Request) : string := Get "User-Agent" (ReqHeader r).

(** What a handler does with the writer it is given: a sequence of calls
    of the interface. A handler cannot reach the fields of the router's
    wrapper (the type and its fields are unexported). *)
Inductive Call :=
| CallWrite (p : string)
| CallWriteHeader (code : Z)
| CallHeaderSet (key value : string)
| CallHeaderDel (key : string).

Definition call {W} `{ResponseWriter W} (w : W) (c : Call) : W :=
  match c with
  | CallWrite p => Write p w
  | CallWriteHeader code => WriteHeader code w
  | CallHeaderSet k v => updHeader (Set_ k v) w
  | CallHeaderDel k => updHeader (delete k) w
  end.

(** [http.HandlerFunc]: the calls the handler makes, which may depend on
    the request it is given. A handler is taken to leave the request as it
    is. *)
Definition HandlerFunc := Request -> list Call.

Definition serve {W} `{ResponseWriter W} (h : HandlerFunc) (w : W) (r : Request) : W :=
  fold_left call (h r) w.

End http.

(** ** Package [regexp] *)

Module regexp.

(** The part of the interface of package [regexp] the router uses.
    [Compile] gives [None] for a pattern that is no regular expression;
    [FindStringSubmatch] gives the leftmost match followed by the text of
    each capturing group, or the empty (nil) slice without a match;
    [MatchString] says whether there is a match at all. *)
Class Engine := {
  Regexp : Type;
  Compile : string -> option Regexp;
  MatchString : Regexp -> string -> bool;
  FindStringSubmatch : Regexp -> string -> list string
}.

(** The library's promise that the two searches agree: there is a match
    exactly when [FindStringSubmatch] returns a slice that is not nil (its
    element 0 is then the text of the match). *)
Definition agree (E : Engine) : Prop :=
  forall re s, MatchString re s = true <-> FindStringSubmatch re s <> [].

End regexp.

(** *** A matcher for a fragment of the syntax

    The library documents its choice of match: the one that begins as
    early as possible in the input and, among those, the one that a
    backtracking search would have found first. [Mini] is that
    backtracking search for patterns built from literal bytes, [.],
    character classes [[...]] and [[^...]], capturing groups, [|] and the
    greedy operators [*], [+] and [?]. A pattern outside this fragment
    (anchors, [{n,m}], non-greedy operators, [(?...)] groups, named classes,
    the iteration of an expression that can match the empty text) is
    refused, also where the library would accept it, and texts are matched
    byte by byte (the library reads UTF-8, which is the same on ASCII):
    [Mini] serves to run the router on concrete routes and requests. *)

Module Mini.

Inductive re :=
| Eps
| Chr (c : ascii)
| Any
| Cls (neg : bool) (ranges : list (ascii * ascii))
| Cat (a b : re)
| Alt (a b : re)
| Star (a : re)
| Plus (a : re)
| Opt (a : re)
| Grp (n : nat) (a : re).

Definition result := option (re * string * nat).

(** The expression can match the empty text. *)
Fixpoint nullable (r : re) : bool :=
  match r with
  | Eps | Star _ | Opt _ => true
  | Chr _ | Any | Cls _ _ => false
  | Cat a b => nullable a && nullable b
  | Alt a b => nullable a || nullable b
  | Plus a | Grp _ a => nullable a
  end.

Definition special (c : ascii) : bool :=
  match c with
  | "\" | "." | "+" | "*" | "?" | "(" | ")" | "|" | "[" | "]" | "{" | "}" | "^" | "$" => true
  | _ => false
  end%char.

Definition isRepeat (s : string) : bool :=
  match s with
  | String c _ =>
      match c with
      | "*" | "+" | "?" | "{" => true
      | _ => false
      end%char
  | EmptyString => false
  end.

(** The items of a character class up to the closing bracket. *)
Fixpoint parseClass (s : string) : option (list (ascii * ascii) * string) :=
  match s with
  | EmptyString => None
  | String c s1 =>
      if Ascii.eqb c "]" then Some ([], s1)
      else if Ascii.eqb c "[" then None
      else if Ascii.eqb c "\" then
        match s1 with
        | String d s2 =>
            if special d || Ascii.eqb d "-" then
              match parseClass s2 with
              | Some (items, rest) => Some ((d, d) :: items, rest)
              | None => None
              end
            else None
        | EmptyString => None
        end
      else
        match s1 with
        | String d (String e s3) =>
            if Ascii.eqb d "-" && negb (Ascii.eqb e "]") then
              if (N_of_ascii c <=? N_of_ascii e)%N && negb (Ascii.eqb e "\") && negb (Ascii.eqb e "[") then
                match parseClass s3 with
                | Some (items, rest) => Some ((c, e) :: items, rest)
                | None => None
                end
              else None
            else
              match parseClass s1 with
              | Some (items, rest) => Some ((c, c) :: items, rest)
              | None => None
              end
        | _ =>
            match parseClass s1 with
            | Some (items, rest) => Some ((c, c) :: items, rest)
            | None => None
            end
        end
  end.

(** Recursive descent; [g] is the number of the next capturing group,
    [n] bounds the depth of the descent. *)
Fixpoint parseAlt (n : nat) (s : string) (g : nat) : result :=
  match n with
  | O => None
  | S n =>
      match parseCat n s g with
      | Some (a, String c s', g') =>
          if Ascii.eqb c "|" then
            match parseAlt n s' g' with
            | Some (b, s'', g'') => Some (Alt a b, s'', g'')
            | None => None
            end
          else Some (a, String c s', g')
      | other => other
      end
  end
with parseCat (n : nat) (s : string) (g : nat) : result :=
  match n with
  | O => None
  | S n =>
      match s with
      | EmptyString => Some (Eps, s, g)
      | String c _ =>
          if Ascii.eqb c "|" || Ascii.eqb c ")" then Some (Eps, s, g)
          else
            match parseRep n s g with
            | Some (a, s', g') =>
                match parseCat n s' g' with
                | Some (Eps, s'', g'') => Some (a, s'', g'')
                | Some (b, s'', g'') => Some (Cat a b, s'', g'')
                | None => None
                end
            | None => None
            end
      end
  end
with parseRep (n : nat) (s : string) (g : nat) : result :=
  match n with
  | O => None
  | S n =>
      match parseAtom n s g with
      | Some (a, String c s', g') =>
          if Ascii.eqb c "*" then
            if isRepeat s' || nullable a then None else Some (Star a, s', g')
          else if Ascii.eqb c "+" then
            if isRepeat s' || nullable a then None else Some (Plus a, s', g')
          else if Ascii.eqb c "?" then
            if isRepeat s' then None else Some (Opt a, s', g')
          else if Ascii.eqb c "{" then None
          else Some (a, String c s', g')
      | other => other
      end
  end
with parseAtom (n : nat) (s : string) (g : nat) : result :=
  match n with
  | O => None
  | S n =>
      match s with
      | EmptyString => None
      | String c s1 =>
          if Ascii.eqb c "(" then
            match s1 with
            | String "?" _ => None
            | _ =>
                match parseAlt n s1 (S g) with
                | Some (a, String d s2, g') =>
                    if Ascii.eqb d ")" then Some (Grp g a, s2, g') else None
                | _ => None
                end
            end
          else if Ascii.eqb c "[" then
            match s1 with
            | String "^" s2 =>
                match parseClass s2 with
                | Some (x :: items, rest) => Some (Cls true (x :: items), rest, g)
                | _ => None
                end
            | _ =>
                match parseClass s1 with
                | Some (x :: items, rest) => Some (Cls false (x :: items), rest, g)
                | _ => None
                end
            end
          else if Ascii.eqb c "." then Some (Any, s1, g)
          else if Ascii.eqb c "\" then
            match s1 with
            | String d s2 => if special d then Some (Chr d, s2, g) else None
            | EmptyString => None
            end
          else if special c then None
          else Some (Chr c, s1, g)
      end
  end.

Record prog := mkProg { expr : re; numSubexp : nat }.

Definition Compile (pattern : string) : option prog :=
  match parseAlt (4 * String.length pattern + 8) pattern 0 with
  | Some (a, EmptyString, g) => Some {| expr := a; numSubexp := g |}
  | _ => None
  end.

(** The state of a search: the input that is left and the text of the
    groups closed so far. *)
Definition cont := string -> gmap nat string -> option (string * gmap nat string).

Definition inClass (ranges : list (ascii * ascii)) (c : ascii) : bool :=
  existsb (fun '(lo, hi) => (N_of_ascii lo <=? N_of_ascii c)%N && (N_of_ascii c <=? N_of_ascii hi)%N)
          ranges.

(** Greedy iteration of [ma]: one more round when it consumes input and
    the rest then matches, no more rounds otherwise. *)
Fixpoint star (ma : string -> gmap nat string -> cont -> option (string * gmap nat string))
    (k : cont) (n : nat) (s : string) (c : gmap nat string) : option (string * gmap nat string) :=
  match n with
  | O => k s c
  | S n' =>
      match ma s c (fun s' c' =>
                      if (String.length s' <? String.length s)%nat
                      then star ma k n' s' c' else None) with
      | Some x => Some x
      | None => k s c
      end
  end.

Fixpoint run (r : re) (s : string) (c : gmap nat string) (k : cont)
  : option (string * gmap nat string) :=
  match r with
  | Eps => k s c
  | Chr a =>
      match s with
      | String b s' => if Ascii.eqb a b then k s' c else None
      | EmptyString => None
      end
  | Any =>
      match s with
      | String b s' => if Ascii.eqb b "010" then None else k s' c
      | EmptyString => None
      end
  | Cls neg ranges =>
      match s with
      | String b s' => if xorb neg (inClass ranges b) then k s' c else None
      | EmptyString => None
      end
  | Cat a b => run a s c (fun s' c' => run b s' c' k)
  | Alt a b =>
      match run a s c k with
      | Some x => Some x
      | None => run b s c k
      end
  | Star a => star (run a) k (String.length s) s c
  | Plus a => run a s c (fun s' c' => star (run a) k (String.length s') s' c')
  | Opt a =>
      match run a s c k with
      | Some x => Some x
      | None => k s c
      end
  | Grp n a =>
      run a s c (fun s' c' =>
        k s' (<[n := GoStrings.take (String.length s - String.length s') s]> c'))
  end.

(** The leftmost match: the first position of the input where the search
    succeeds. The result is the text of the match and of every group
    ([""] for a group that took no part). *)
Fixpoint search (p : prog) (s : string) : list string :=
  match run (expr p) s ∅ (fun s' c' => Some (s', c')) with
  | Some (s', c') =>
      GoStrings.take (String.length s - String.length s') s
        :: map (fun i => default EmptyString (c' !! i)) (seq 0 (numSubexp p))
  | None =>
      match s with
      | EmptyString => []
      | String _ s' => search p s'
      end
  end.

Definition engine : regexp.Engine := {|
  regexp.Regexp := prog;
  regexp.Compile := Compile;
  regexp.MatchString := fun p s => match search p s with [] => false | _ => true end;
  regexp.FindStringSubmatch := search
|}.

End Mini.

(** ** Package [path/filepath] (Unix) *)

Module filepath.

Definition rooted (path : string) : bool := GoStrings.HasPrefix path "/".

(** The loop of [Clean] over the elements of the path, [out] being the
    elements written so far, last first: an empty element and [.] are
    dropped; [..] removes the element before it, is dropped at the root
    and is kept at the start of a path that is not rooted. *)
Fixpoint cleanElems (isRooted : bool) (elems out : list string) : list string :=
  match elems with
  | [] => out
  | e :: rest =>
      if String.eqb e "" || String.eqb e "." then cleanElems isRooted rest out
      else if String.eqb e ".." then
        match out with
        | top :: out' =>
            if String.eqb top ".." then cleanElems isRooted rest (e :: out)
            else cleanElems isRooted rest out'
        | [] =>
            if isRooted then cleanElems isRooted rest []
            else cleanElems isRooted rest [e]
        end
      else cleanElems isRooted rest (e :: out)
  end.

(** [filepath.Clean]: the shortest path name equivalent to [path] by
    purely lexical processing. *)
Definition Clean (path : string) : string :=
  if String.eqb path "" then "."
  else
    let out := rev (cleanElems (rooted path) (GoStrings.Split path "/") []) in
    if rooted path then String "/" (GoStrings.Join out "/")
    else match out with
         | [] => "."
         | _ => GoStrings.Join out "/"
         end.

(** [filepath.Join]: the elements from the first one that is not empty,
    joined by the separator and cleaned. *)
Fixpoint Join (elem : list string) : string :=
  match elem with
  | [] => EmptyString
  | e :: rest =>
      if String.eqb e "" then Join rest
      else Clean (GoStrings.Join elem "/")
  end.

(** The elements of a path: its parts between separators that name
    something. *)
Definition Elements (path : string) : list string :=
  filter (fun e => e <> EmptyString /\ e <> ".") (GoStrings.Split path "/").

End filepath.

(** ** Package [routes] *)

Definition CONNECT : string := "CONNECT".
Definition DELETE : string := "DELETE".
Definition GET : string := "GET".
Definition HEAD : string := "HEAD".
Definition OPTIONS : string := "OPTIONS".
Definition PATCH : string := "PATCH".
Definition POST : string := "POST".
Definition PUT : string := "PUT".
Definition TRACE : string := "TRACE".

Definition applicationJson : string := "application/json".
Definition applicationXml : string := "applicatoin/xml".
Definition textXml : string := "text/xml".

Section Router.
Import GoStrings.

Context {E : regexp.Engine}.

(** The package variable [DefaultAccessControlOrigin] (["*"] unless the
    program assigns it). *)
Variable DefaultAccessControlOrigin : string.

(** The type of the writer the server hands to [ServeHTTP]. *)
Context {W : Type} {HW : http.ResponseWriter W}.

Record Route := mkRoute {
  method : string;
  regex : regexp.Regexp;
  params : gmap nat string;
  handler : http.HandlerFunc
}.

Record RouteMux := mkRouteMux {
  routes : list Route;
  Logging : bool
}.

(** The loop of [AddRoute] over the parts of the pattern: [j] counts the
    parameters found so far; the result is the parts with every parameter
    replaced by its expression, and the parameter map. *)
Fixpoint replaceParams (parts : list string) (j : nat) (params : gmap nat string)
  : list string * gmap nat string :=
  match parts with
  | [] => ([], params)
  | part :: rest =>
      if HasPrefix part ":" then
        let index := Index part "(" in
        let expr := if index =? -1 then "([^/]+)" else slice_from part index in
        let part := if index =? -1 then part else slice_to part index in
        let '(rest', params') := replaceParams rest (S j) (<[j := part]> params) in
        (expr :: rest', params')
      else
        let '(rest', params') := replaceParams rest j params in
        (part :: rest', params')
  end.

(** [AddRoute]; [None] is the panic on a pattern that does not compile. *)
Definition AddRoute (method pattern : string) (handler : http.HandlerFunc)
    (this : RouteMux) : option (RouteMux * Route) :=
  let parts := Split pattern "/" in
  let '(parts, params) := replaceParams parts 0 ∅ in
  let pattern := Join parts "/" in
  match regexp.Compile pattern with
  | None => None
  | Some regex =>
      let route := {| method := method; regex := regex;
                      params := params; handler := handler |} in
      Some ({| routes := routes this ++ [route]; Logging := Logging this |}, route)
  end.

Definition Get := AddRoute GET.
Definition Put := AddRoute PUT.
Definition Del := AddRoute DELETE.
Definition Patch := AddRoute PATCH.
Definition Post := AddRoute POST.

(** *** [responseWriter] *)

Record responseWriter := mkResponseWriter {
  writer : W;
  started : bool;
  size : Z;
  status : Z
}.

Definition responseWriter_Header (this : responseWriter) : http.Header :=
  http.Header_ (writer this).

Definition responseWriter_updHeader (f : http.Header -> http.Header)
    (this : responseWriter) : responseWriter :=
  {| writer := http.updHeader f (writer this); started := started this;
     size := size this; status := status this |}.

Definition responseWriter_Write (p : string) (this : responseWriter) : responseWriter :=
  let size := len p in
  let wr := http.updHeader (http.Set_ "Content-Length" (strconv.Itoa size)) (writer this) in
  let wr := http.updHeader
              (http.Set_ "Access-Control-Allow-Origin" DefaultAccessControlOrigin) wr in
  {| writer := http.Write p wr; started := true; size := size; status := status this |}.

Definition responseWriter_WriteHeader (code : Z) (this : responseWriter) : responseWriter :=
  let wr := http.WriteHeader code (writer this) in
  let wr := http.updHeader (http.Set_ "Content-Length" "0") wr in
  let wr := http.updHeader
              (http.Set_ "Access-Control-Allow-Origin" DefaultAccessControlOrigin) wr in
  {| writer := wr; started := true; size := size this; status := code |}.

#[export] Instance responseWriter_ResponseWriter : http.ResponseWriter responseWriter := {
  http.Header_ := responseWriter_Header;
  http.updHeader := responseWriter_updHeader;
  http.Write := responseWriter_Write;
  http.WriteHeader := responseWriter_WriteHeader
}.

(** *** [ServeHTTP] *)

(** The two tests both loops make on a route: the pattern matches
    somewhere in the path, and the text of the leftmost match
    ([matches[0]]) is as long as the path. The result is [matches]. *)
Definition submatches (rt : Route) (requestPath : string) : option (list string) :=
  if negb (regexp.MatchString (regex rt) requestPath) then None
  else
    let matches := regexp.FindStringSubmatch (regex rt) requestPath in
    if negb (len (hd EmptyString matches) =? len requestPath) then None
    else Some matches.

(** [for i, match := range matches[1:] { values.Add(Route.params[i], match) }];
    a missing key of [params] reads as [""]. *)
Fixpoint addParams (params : gmap nat string) (i : nat) (ms : list string)
    (values : url.Values) : url.Values :=
  match ms with
  | [] => values
  | m :: ms' => addParams params (S i) ms' (url.Add (default EmptyString (params !! i)) m values)
  end.

(** The request the handler of a route is given. *)
Definition rewrite (rt : Route) (matches : list string) (r : http.Request) : http.Request :=
  let values := url.Query (http.URL r) in
  let values := addParams (params rt) 0 (tl matches) values in
  http.setRawQuery (url.Encode values) r.

(** The loop over the routes. Beside the writer and the request, the
    result lists the handlers that were invoked: the index of the route
    and the request it was given. *)
Fixpoint dispatch (rts : list Route) (i : nat) (w : responseWriter) (r : http.Request)
  : responseWriter * http.Request * list (nat * http.Request) :=
  match rts with
  | [] => (w, r, [])
  | rt :: rest =>
      if negb (String.eqb (http.Method r) (method rt)) then dispatch rest (S i) w r
      else match submatches rt (url.Path (http.URL r)) with
           | None => dispatch rest (S i) w r
           | Some matches =>
               let r := rewrite rt matches r in
               (http.serve (handler rt) w r, r, [(i, r)])
           end
  end.

(** The loop of [optionsRequest]. *)
Fixpoint collectOptions (rts : list Route) (requestPath : string) (options : list string)
  : list string :=
  match rts with
  | [] => options
  | rt :: rest =>
      match submatches rt requestPath with
      | None => collectOptions rest requestPath options
      | Some _ =>
          let options := options ++ [method rt] in
          let options := if String.eqb (method rt) GET then options ++ [HEAD] else options in
          collectOptions rest requestPath options
      end
  end.

(** The text [optionsRequest] computes for the [Public] header. *)
Definition optionsStr (this : RouteMux) (r : http.Request) : string :=
  let options := collectOptions (routes this) (url.Path (http.URL r)) [OPTIONS] in
  Join (GoSort.Strings options) ", ".

Definition optionsRequest {W'} `{http.ResponseWriter W'}
    (this : RouteMux) (w : W') (r : http.Request) : W' :=
  let w := http.WriteHeader http.StatusOK w in
  http.updHeader (http.Set_ "Public" (optionsStr this r)) w.

(** The fields of the access log line, without the time of day. *)
Record AccessLog := mkAccessLog {
  log_addr : string; log_method : string; log_path : string; log_proto : string;
  log_status : Z; log_size : Z; log_referer : string; log_agent : string
}.

Record Served := mkServed {
  served_w : responseWriter;
  served_r : http.Request;
  invoked : list (nat * http.Request);
  logged : option AccessLog
}.

(** [&responseWriter{writer: rw}] *)
Definition wrap (rw : W) : responseWriter :=
  {| writer := rw; started := false; size := 0; status := 0 |}.

Definition ServeHTTP (this : RouteMux) (rw : W) (r : http.Request) : Served :=
  let w := wrap rw in
  let '(w, r, inv) := dispatch (routes this) 0 w r in
  let w := if String.eqb (http.Method r) OPTIONS then optionsRequest this w r else w in
  let w := if negb (started w) then http.NotFound w else w in
  {| served_w := w; served_r := r; invoked := inv;
     logged :=
       if Logging this then
         Some {| log_addr := http.RemoteAddr r; log_method := http.Method r;
                 log_path := url.Path (http.URL r); log_proto := http.Proto r;
                 log_status := status w; log_size := size w;
                 log_referer := http.Referer r; log_agent := http.UserAgent r |}
       else None |}.

End Router.

(** *** [Static] *)

Section StaticFiles.
Context {E : regexp.Engine}.

(** [http.ServeFile], the file server of the library: what it writes for
    a request and a file name depends on the file system. *)
Variable ServeFile : http.Request -> string -> list http.Call.

(** The file name the handler of [Static] computes. *)
Definition staticPath (dir : string) (r : http.Request) : string :=
  let path := filepath.Clean (url.Path (http.URL r)) in
  filepath.Join [dir; path].

Definition Static (pattern dir : string) (this : RouteMux) : option (RouteMux * Route) :=
  let pattern := pattern +:+ "(.+)" in
  AddRoute GET pattern (fun r => ServeFile r (staticPath dir r)) this.

End StaticFiles.

(** *** [ServeJson], [ServeXml], [ServeFormatted] *)

Section Formatted.
Context {W : Type} {HW : http.ResponseWriter W}.

(** The resources and the two encoders of the library
    ([json.MarshalIndent] with two spaces, [xml.Marshal]): the content, or
    the text of the error. *)
Context {V : Type}.
Variable jsonMarshalIndent : V -> string + string.
Variable xmlMarshal : V -> string + string.

Definition ServeJson (w : W) (v : V) : W :=
  match jsonMarshalIndent v with
  | inr err => http.Error w err http.StatusInternalServerError
  | inl content =>
      let w := http.Write content w in
      http.updHeader (http.Set_ "Content-Type" applicationJson) w
  end.

Definition ServeXml (w : W) (v : V) : W :=
  match xmlMarshal v with
  | inr err => http.Error w err http.StatusInternalServerError
  | inl content =>
      let w := http.Write content w in
      http.updHeader (http.Set_ "Content-Type" "text/xml; charset=utf-8") w
  end.

Definition ServeFormatted (w : W) (r : http.Request) (v : V) : W :=
  let accept := http.Get "Accept" (http.ReqHeader r) in
  if String.eqb accept applicationJson then ServeJson w v
  else if String.eqb accept applicationXml || String.eqb accept textXml then ServeXml w v
  else ServeJson w v.

End Formatted.

(** ** Vocabulary of the statements *)

Section Vocabulary.
Context {E : regexp.Engine}.

(** A route satisfies a request: same method, and the two tests of
    [submatches] pass on the path. *)
Definition satisfies (rt : Route) (r : http.Request) : bool :=
  String.eqb (http.Method r) (method rt)
  && bool_decide (is_Some (submatches rt (url.Path (http.URL r)))).

(** Route [i] is the first of the table that satisfies the request. *)
Definition first_satisfying (rts : list Route) (r : http.Request) (i : nat) : Prop :=
  (exists rt, rts !! i = Some rt /\ satisfies rt r = true) /\
  (forall j rt, (j < i)%nat -> rts !! j = Some rt -> satisfies rt r = false).

(** What a route adds to the options of a path. *)
Definition contributes (requestPath : string) (rt : Route) : list string :=
  match submatches rt requestPath with
  | None => []
  | Some _ => if String.eqb (method rt) GET then [method rt; HEAD] else [method rt]
  end.

(** The [Public] value as the specification words it: the methods as a
    set, every method once. *)
Definition optionsStr_as_set (this : RouteMux) (r : http.Request) : string :=
  GoStrings.Join
    (GoSort.Strings
       (remove_dups (OPTIONS :: flat_map (contributes (url.Path (http.URL r))) (routes this))))
    ", ".

End Vocabulary.

(** A call that only touches the header map: it sends nothing. *)
Definition headerCall (c : http.Call) : bool :=
  match c with
  | http.CallHeaderSet _ _ | http.CallHeaderDel _ => true
  | http.CallWrite _ | http.CallWriteHeader _ => false
  end.

(** The order of [sort.Strings]: byte-wise comparison. *)
Definition str_le (a b : string) : Prop := String.leb a b = true.

(** Every byte of the text passes the test. *)
Fixpoint all_bytes (P : ascii -> bool) (s : string) : bool :=
  match s with
  | EmptyString => true
  | String c s' => P c && all_bytes P s'
  end.

(** The bytes [url.QueryEscape] can produce. *)
Definition escaped_byte (c : ascii) : bool :=
  negb (url.shouldEscape c) || Ascii.eqb c "%" || Ascii.eqb c "+".

(** Query values as the parser builds them: no key with an empty list. *)
Definition no_empty_list (v : url.Values) : Prop :=
  forall k l, v !! k = Some l -> l <> [].

(** [Values.Add] of each pair of a list, in order. *)
Definition addAll (kxs : list (string * string)) (v : url.Values) : url.Values :=
  fold_left (fun m kx => url.Add kx.1 kx.2 m) kxs v.

(** A pair as [Values.Encode] writes it. *)
Definition pairText (kx : string * string) : string :=
  url.QueryEscape kx.1 +:+ "=" +:+ url.QueryEscape kx.2.

(** The name [AddRoute] records for a parameter part: the part itself, or
    the part up to its first ["("]. *)
Definition paramName (part : string) : string :=
  if GoStrings.Index part "(" =? -1 then part
  else GoStrings.slice_to part (GoStrings.Index part "(").

(** A path made of elements: the separator in front when rooted, the
    elements joined by it, ["."] for no element and no root. *)
Definition render (isRooted : bool) (elems : list string) : string :=
  if isRooted then String "/" (GoStrings.Join elems "/")
  else match elems with
       | [] => "."
       | _ => GoStrings.Join elems "/"
       end.

(** An element as [Clean] writes it: it names something, and holds no
    separator. *)
Definition named (e : string) : Prop :=
  e <> EmptyString /\ e <> "." /\
  all_bytes (fun c => negb (Ascii.eqb c "/")) e = true.

(** The text of a match is a part of the input: a further promise of
    the library. *)
Definition within (E : regexp.Engine) : Prop :=
  forall re s m ms, regexp.FindStringSubmatch re s = m :: ms ->
                    exists a b, s = a +:+ m +:+ b.

(** [t] is what is left of [s] after some bytes. *)
Definition rest_of (t s : string) : Prop := exists a, s = a +:+ t.


(** [New]: a router without routes, logging on (its logger writes to the
    standard output). *)
Definition New {E : regexp.Engine} : RouteMux := {| routes := []; Logging := true |}.

(** The test [AddRoute] makes on a part of the pattern. *)
Definition isParam (part : string) : bool := GoStrings.HasPrefix part ":".

(** What [AddRoute] puts in the place of a part: the part itself, or for a
    parameter its text from the first ["("], or the default expression. *)
Definition partExpr (part : string) : string :=
  if isParam part then
    if GoStrings.Index part "(" =? -1 then "([^/]+)"
    else GoStrings.slice_from part (GoStrings.Index part "(")
  else part.


(** The text of the last [Write] among the calls, the code of the last
    [WriteHeader]. *)
Fixpoint lastWrite (cs : list http.Call) : option string :=
  match cs with
  | [] => None
  | c :: cs' =>
      match lastWrite cs' with
      | Some p => Some p
      | None => match c with http.CallWrite p => Some p | _ => None end
      end
  end.

Fixpoint lastStatus (cs : list http.Call) : option Z :=
  match cs with
  | [] => None
  | c :: cs' =>
      match lastStatus cs' with
      | Some code => Some code
      | None => match c with http.CallWriteHeader code => Some code | _ => None end
      end
  end.


(** A sequence of registrations, each of a method, a pattern and a
    handler, made one after the other on a router; [None] when one of the
    calls panics. *)
Fixpoint registerAll {E : regexp.Engine} (regs : list (string * string * http.HandlerFunc))
    (this : RouteMux) : option RouteMux :=
  match regs with
  | [] => Some this
  | (m, pattern, h) :: rest =>
      match AddRoute m pattern h this with
      | Some (mux, _) => registerAll rest mux
      | None => None
      end
  end.


(** The path lies below [root]: it is of the same kind (rooted or not)
    and has the elements of [root] followed by elements other than [..]. *)
Definition below (root path : string) : Prop :=
  filepath.rooted path = filepath.rooted root /\
  exists rest, filepath.Elements path = filepath.Elements root ++ rest /\
               Forall (fun e => e <> "..") rest.

(** ** Example routers, on the matcher [Mini] and the server's writer *)

Module Examples.

Definition emptyMux : RouteMux (E := Mini.engine) :=
  {| routes := []; Logging := true |}.

(** Registration of a list of routes, in order; the table so far on a
    pattern that does not compile. *)
Definition register (rs : list (string * string * http.HandlerFunc))
  : RouteMux (E := Mini.engine) :=
  fold_left (fun mux '(m, pattern, h) =>
               match AddRoute m pattern h mux with
               | Some (mux', _) => mux'
               | None => mux
               end) rs emptyMux.

(** The route [AddRoute] makes of a method, a pattern and a handler (a
    route that matches the empty text on a pattern that does not compile). *)
Definition route (m pattern : string) (h : http.HandlerFunc) : Route (E := Mini.engine) :=
  match AddRoute m pattern h emptyMux with
  | Some (_, rt) => rt
  | None => mkRoute (E := Mini.engine) m (Mini.mkProg Mini.Eps 0) ∅ h
  end.

Definition table (rts : list (Route (E := Mini.engine))) : RouteMux (E := Mini.engine) :=
  {| routes := rts; Logging := true |}.

(** A handler that writes the query parameter [name]. *)
Definition echo (name : string) : http.HandlerFunc :=
  fun r => [http.CallWrite (url.Get name (url.Query (http.URL r)))].

(** A handler that writes a fixed text. *)
Definition say (text : string) : http.HandlerFunc :=
  fun _ => [http.CallWrite text].

Definition request (m path query : string) : http.Request :=
  {| http.Method := m;
     http.URL := {| url.Path := path; url.RawQuery := query |};
     http.Proto := "HTTP/1.1"; http.ReqHeader := ∅; http.RemoteAddr := "127.0.0.1:4000" |}.

(** [GET /user/:id([0-9]+)] *)
Definition userRoute := route GET "/user/:id([0-9]+)" (echo ":id").
Definition userMux := table [userRoute].

(** Two routes for overlapping paths. *)
Definition byName := route GET "/user/:name([a-z]+)" (say "by name").
Definition byId := route GET "/user/:id" (say "by id").
Definition overlapMux := table [byName; byId].

(** A route without parameters. *)
Definition plainRoute := route GET "/user" (say "users").
Definition plainMux := table [plainRoute].

Definition serve (mux : RouteMux (E := Mini.engine)) (r : http.Request) :=
  ServeHTTP "*" mux http.newResponse r.

(** A route whose expression is an alternation. *)
Definition altRoute := route GET "/a/:x(b|bc)" (say "alt").
Definition altMux := table [altRoute].

(** A handler that writes the raw query of the request it is given. *)
Definition rawQuery : http.HandlerFunc :=
  fun r => [http.CallWrite (url.RawQuery (http.URL r))].
Definition rawRoute := route GET "/user" rawQuery.
Definition rawMux := table [rawRoute].

(** A file server that writes the name of the file it is asked for, and
    the router with the directory [/srv/public] registered by [Static]
    under [files/]. *)
Definition fileName : http.Request -> string -> list http.Call :=
  fun _ name => [http.CallWrite name].
Definition staticMux : RouteMux (E := Mini.engine) :=
  match Static fileName "files/" "/srv/public" emptyMux with
  | Some (mux, _) => mux
  | None => emptyMux
  end.

End Examples.

(** * Properties *)

(** ** The dispatch loop *)

Section Dispatch.
Context {E : regexp.Engine}.
Variable origin : string.
Context {W : Type} {HW : http.ResponseWriter W}.

Let wrapper : http.ResponseWriter (responseWriter (W := W)) :=
  responseWriter_ResponseWriter origin.
Local Existing Instance wrapper.

Lemma satisfies_false_iff (rt : Route) (r : http.Request) :
  satisfies rt r = false <->
  String.eqb (http.Method r) (method rt) = false \/
  submatches rt (url.Path (http.URL r)) = None.
Proof.
  unfold satisfies. rewrite andb_false_iff, bool_decide_eq_false.
  rewrite <- eq_None_not_Some. tauto.
Qed.

Lemma rewrite_Method rt ms r : http.Method (rewrite rt ms r) = http.Method r.
Proof. reflexivity. Qed.

Lemma rewrite_Path rt ms r :
  url.Path (http.URL (rewrite rt ms r)) = url.Path (http.URL r).
Proof. reflexivity. Qed.

(** The loop either finds no route, and changes nothing, or stops at the
    first route that satisfies the request and runs its handler once. *)
Lemma dispatch_cases (rts : list Route) (i0 : nat) (w : responseWriter (W := W))
    (r : http.Request) :
  (dispatch origin rts i0 w r = (w, r, []) /\
   forall k rt, rts !! k = Some rt -> satisfies rt r = false)
  \/
  (exists k rt ms,
      first_satisfying rts r k /\ rts !! k = Some rt /\
      String.eqb (http.Method r) (method rt) = true /\
      submatches rt (url.Path (http.URL r)) = Some ms /\
      dispatch origin rts i0 w r =
        (http.serve (handler rt) w (rewrite rt ms r), rewrite rt ms r,
         [((i0 + k)%nat, rewrite rt ms r)])).
Proof.
  revert i0. induction rts as [|rt rts IH]; intros i0.
  - left. split; [reflexivity|]. intros k rt Hk. by rewrite lookup_nil in Hk.
  - simpl.
    destruct (String.eqb (http.Method r) (method rt)) eqn:Hm; simpl.
    + destruct (submatches rt (url.Path (http.URL r))) as [ms|] eqn:Hs.
      * right. exists 0%nat, rt, ms. rewrite Nat.add_0_r.
        repeat split; try done.
        -- exists rt. split; [done|]. unfold satisfies. rewrite Hm, Hs.
           done.
        -- intros j rt' Hj. lia.
      * destruct (IH (S i0)) as [[Hd Hall]|(k & rt' & ms & Hf & Hk & Hm' & Hs' & Hd)].
        -- left. split; [done|]. intros [|k] rt' Hk; simpl in Hk.
           ++ inversion Hk; subst. apply satisfies_false_iff. by right.
           ++ by eapply Hall.
        -- right. exists (S k), rt', ms. repeat split; try done.
           ++ destruct Hf as [Hex _]. exact Hex.
           ++ intros [|j] rt'' Hj Hl; simpl in Hl.
              ** inversion Hl; subst. apply satisfies_false_iff. by right.
              ** destruct Hf as [_ Hlt]. eapply Hlt; [|exact Hl]. lia.
           ++ rewrite Hd. by rewrite Nat.add_succ_r.
    + destruct (IH (S i0)) as [[Hd Hall]|(k & rt' & ms & Hf & Hk & Hm' & Hs' & Hd)].
      * left. split; [done|]. intros [|k] rt' Hk; simpl in Hk.
        -- inversion Hk; subst. apply satisfies_false_iff. by left.
        -- by eapply Hall.
      * right. exists (S k), rt', ms. repeat split; try done.
        -- destruct Hf as [Hex _]. exact Hex.
        -- intros [|j] rt'' Hj Hl; simpl in Hl.
           ++ inversion Hl; subst. apply satisfies_false_iff. by left.
           ++ destruct Hf as [_ Hlt]. eapply Hlt; [|exact Hl]. lia.
        -- rewrite Hd. by rewrite Nat.add_succ_r.
Qed.

Lemma first_satisfying_unique (rts : list Route) (r : http.Request) (i j : nat) :
  first_satisfying rts r i -> first_satisfying rts r j -> i = j.
Proof.
  intros [(rti & Hi & Hsi) Hli] [(rtj & Hj & Hsj) Hlj].
  destruct (Nat.lt_trichotomy i j) as [Hlt|[Heq|Hgt]]; [|done|].
  - specialize (Hlj _ _ Hlt Hi). congruence.
  - specialize (Hli _ _ Hgt Hj). congruence.
Qed.

(** The handlers [ServeHTTP] invokes are those of its loop. *)
Lemma ServeHTTP_invoked (this : RouteMux) (rw : W) (r : http.Request) :
  invoked (ServeHTTP origin this rw r) =
  (dispatch origin (routes this) 0
     (wrap rw) r).2.
Proof.
  unfold ServeHTTP.
  by destruct (dispatch origin (routes this) 0 _ r) as [[w' r'] inv].
Qed.

(** [ServeHTTP] as a whole: either no route satisfies the request, no
    handler runs and the steps after the loop work on the fresh wrapper;
    or the handler of the first satisfying route runs on the fresh wrapper
    with the rewritten request, and the steps after the loop follow. *)
Lemma ServeHTTP_cases (this : RouteMux) (rw : W) (r : http.Request) :
  let S := ServeHTTP origin this rw r in
  (invoked S = [] /\
   (forall k rt, routes this !! k = Some rt -> satisfies rt r = false) /\
   served_w S =
     (let w := if String.eqb (http.Method r) OPTIONS
               then optionsRequest this (wrap rw) r else wrap rw in
      if negb (started w) then http.NotFound w else w))
  \/
  (exists k rt ms,
      first_satisfying (routes this) r k /\ routes this !! k = Some rt /\
      submatches rt (url.Path (http.URL r)) = Some ms /\
      invoked S = [(k, rewrite rt ms r)] /\
      served_w S =
        (let w := http.serve (handler rt) (wrap rw) (rewrite rt ms r) in
         let w := if String.eqb (http.Method r) OPTIONS
                  then optionsRequest this w (rewrite rt ms r) else w in
         if negb (started w) then http.NotFound w else w)).
Proof.
  intros S. subst S. unfold ServeHTTP.
  destruct (dispatch_cases (routes this) 0 (wrap rw) r)
    as [[Hd Hall]|(k & rt & ms & Hf & Hk & _ & Hs & Hd)]; rewrite Hd.
  - left. done.
  - right. exists k, rt, ms. rewrite rewrite_Method. done.
Qed.

(** A route satisfies a request exactly when the tests of the loop pass:
    the methods are equal, the pattern matches somewhere in the path, and
    the text of the leftmost match is as long as the path. *)
Lemma satisfies_tests (rt : Route) (r : http.Request) :
  satisfies rt r = true <->
  http.Method r = method rt /\
  regexp.MatchString (regex rt) (url.Path (http.URL r)) = true /\
  GoStrings.len (hd EmptyString (regexp.FindStringSubmatch (regex rt) (url.Path (http.URL r)))) =
    GoStrings.len (url.Path (http.URL r)).
Proof.
  unfold satisfies, submatches.
  rewrite andb_true_iff, String.eqb_eq, bool_decide_eq_true.
  destruct (regexp.MatchString (regex rt) (url.Path (http.URL r))); cbn [negb].
  - destruct (Z.eqb_spec
                (GoStrings.len (hd EmptyString
                        (regexp.FindStringSubmatch (regex rt) (url.Path (http.URL r)))))
                (GoStrings.len (url.Path (http.URL r)))) as [Heq|Hne]; cbn [negb].
    + split; [by intros [-> _]|]. intros (-> & _ & _). split; [done|by eexists].
    + split; [by intros [_ [x Hx]]|]. by intros (_ & _ & Hl).
  - split; [by intros [_ [x Hx]]|]. by intros (_ & Hm & _).
Qed.

End Dispatch.

Section DispatchProperties.
Context {E : regexp.Engine}.
Variable origin : string.
Context {W : Type} {HW : http.ResponseWriter W}.

Let wrapper : http.ResponseWriter (responseWriter (W := W)) :=
  responseWriter_ResponseWriter origin.
Local Existing Instance wrapper.

(** A handler that was invoked is that of the first satisfying route. *)
Lemma invoked_first (this : RouteMux) (rw : W) (r : http.Request) (i : nat)
    (r' : http.Request) :
  (i, r') ∈ invoked (ServeHTTP origin this rw r) ->
  first_satisfying (routes this) r i.
Proof.
  rewrite ServeHTTP_invoked. intros Hi.
  destruct (dispatch_cases origin (routes this) 0
              (wrap rw) r)
    as [[Hd _]|(k & rt & ms & Hf & _ & _ & _ & Hd)];
    rewrite Hd in Hi; simpl in Hi.
  - by apply elem_of_nil in Hi.
  - apply list_elem_of_singleton in Hi. by inversion Hi; subst.
Qed.

(** C2. First match wins. A route satisfies a request when it has the
    method of the request and its pattern fully matches the path in the
    sense of the code: the pattern matches somewhere in the path and the
    text of the leftmost match is as long as the path. [ServeHTTP] invokes
    at most one handler. When some route satisfies the request, the handler
    invoked is that of the first such route of the table, and the writer
    the router ends with is the fresh wrapper after that handler has run on
    it with the rewritten request, followed by the steps after the loop;
    when no route does, no handler runs on the writer. No route registered
    after a satisfying route is ever invoked. *)
Theorem first_match_wins (this : RouteMux) (rw : W) (r : http.Request) :
  let S := ServeHTTP origin this rw r in
  (length (invoked S) <= 1)%nat /\
  (forall rt,
      satisfies rt r = true <->
      http.Method r = method rt /\
      regexp.MatchString (regex rt) (url.Path (http.URL r)) = true /\
      GoStrings.len (hd EmptyString
                       (regexp.FindStringSubmatch (regex rt) (url.Path (http.URL r)))) =
        GoStrings.len (url.Path (http.URL r))) /\
  (forall i, first_satisfying (routes this) r i ->
             exists rt ms,
               routes this !! i = Some rt /\
               submatches rt (url.Path (http.URL r)) = Some ms /\
               invoked S = [(i, rewrite rt ms r)] /\
               served_w S =
                 (let w := http.serve (handler rt) (wrap rw) (rewrite rt ms r) in
                  let w := if String.eqb (http.Method r) OPTIONS
                           then optionsRequest this w (rewrite rt ms r) else w in
                  if negb (started w) then http.NotFound w else w)) /\
  ((forall i rt, routes this !! i = Some rt -> satisfies rt r = false) ->
   invoked S = [] /\
   served_w S =
     (let w := if String.eqb (http.Method r) OPTIONS
               then optionsRequest this (wrap rw) r else wrap rw in
      if negb (started w) then http.NotFound w else w)) /\
  (forall i r', (i, r') ∈ invoked S -> first_satisfying (routes this) r i) /\
  (forall i j rti rtj,
      (i < j)%nat ->
      routes this !! i = Some rti -> routes this !! j = Some rtj ->
      satisfies rti r = true -> satisfies rtj r = true ->
      forall r', (j, r') ∉ invoked S).
Proof.
  intros S. subst S.
  split; [|split; [|split; [|split; [|split]]]].
  - rewrite ServeHTTP_invoked.
    destruct (dispatch_cases origin (routes this) 0
                (wrap rw) r)
      as [[Hd _]|(k & rt & ms & _ & _ & _ & _ & Hd)]; rewrite Hd; simpl; lia.
  - intros rt. apply satisfies_tests.
  - intros i Hi.
    destruct (ServeHTTP_cases origin this rw r)
      as [(_ & Hall & _)|(k & rt & ms & Hf & Hk & Hs & Hinv & Hw)].
    + destruct Hi as [(rt & Hrt & Hsat) _]. specialize (Hall _ _ Hrt). congruence.
    + assert (i = k) by (eapply first_satisfying_unique; eauto). subst k.
      by exists rt, ms.
  - intros Hnone.
    destruct (ServeHTTP_cases origin this rw r)
      as [(Hinv & _ & Hw)|(k & rt & ms & [(rt' & Hrt' & Hsat) _] & _)]; [done|].
    specialize (Hnone _ _ Hrt'). congruence.
  - apply invoked_first.
  - intros i j rti rtj Hlt Hi Hj Hsi Hsj r' Hr'.
    apply invoked_first in Hr'. destruct Hr' as [_ Hbefore].
    specialize (Hbefore _ _ Hlt Hi). congruence.
Qed.

Lemma started_Write (p : string) (w : responseWriter (W := W)) :
  started (http.Write p w) = true.
Proof. reflexivity. Qed.

Lemma started_WriteHeader (code : Z) (w : responseWriter (W := W)) :
  started (http.WriteHeader code w) = true.
Proof. reflexivity. Qed.

Lemma started_NotFound (w : responseWriter (W := W)) :
  started (http.NotFound w) = true /\ status (http.NotFound w) = http.StatusNotFound.
Proof. split; reflexivity. Qed.

(** Once set, [started] stays set, whatever the handler calls. *)
Lemma started_call (c : http.Call) (w : responseWriter (W := W)) :
  started w = true -> started (http.call w c) = true.
Proof. by destruct c. Qed.

Lemma started_serve (h : http.HandlerFunc) (r : http.Request) (w : responseWriter (W := W)) :
  started w = true -> started (http.serve h w r) = true.
Proof.
  unfold http.serve. generalize (h r). intros cs. revert w.
  induction cs as [|c cs IH]; intros w Hw; simpl; [done|].
  apply IH. by apply started_call.
Qed.

(** Calls on the header map leave [started] as it is. *)
Lemma started_headerCalls (cs : list http.Call) (w : responseWriter (W := W)) :
  forallb headerCall cs = true -> started (fold_left http.call cs w) = started w.
Proof.
  revert w. induction cs as [|c cs IH]; intros w Hcs; simpl in *; [done|].
  apply andb_true_iff in Hcs as [Hc Hcs]. rewrite IH by done.
  by destruct c.
Qed.

(** C3. After [ServeHTTP] the wrapper's [started] flag is set, for every
    table of routes, writer and request. When the request is no OPTIONS
    request and no handler ran, or the handler that ran made no [Write]
    and no [WriteHeader], the response is the not-found response of the
    library, with status 404, written to a wrapper that had not started. *)
Theorem dispatch_always_resolves (this : RouteMux) (rw : W) (r : http.Request) :
  let S := ServeHTTP origin this rw r in
  started (served_w S) = true /\
  (String.eqb (http.Method r) OPTIONS = false ->
   Forall (fun '(i, r') =>
             forall rt, routes this !! i = Some rt ->
                        forallb headerCall (handler rt r') = true)
          (invoked S) ->
   status (served_w S) = http.StatusNotFound /\
   exists w1, started w1 = false /\ served_w S = http.NotFound w1).
Proof.
  intros S. subst S. unfold ServeHTTP.
  destruct (dispatch_cases origin (routes this) 0 (wrap rw) r)
    as [[Hd _]|(k & rt & ms & _ & Hk & _ & _ & Hd)]; rewrite Hd.
  - simpl. split.
    + destruct (String.eqb (http.Method r) OPTIONS); simpl; reflexivity.
    + intros Hm _. rewrite Hm. simpl. split; [reflexivity|].
      by exists (wrap rw).
  - assert (Hst : forallb headerCall (handler rt (rewrite rt ms r)) = true ->
                  started (http.serve (handler rt) (wrap rw) (rewrite rt ms r)) = false).
    { intros Hcalls. unfold http.serve. by rewrite started_headerCalls. }
    set (w1 := http.serve (handler rt) (wrap rw) (rewrite rt ms r)) in *.
    cbn [invoked served_w rewrite_Method]. rewrite rewrite_Method.
    split.
    + destruct (String.eqb (http.Method r) OPTIONS); [reflexivity|].
      destruct (started w1) eqn:Hw1; [exact Hw1|reflexivity].
    + intros Hm Hcalls. rewrite Hm.
      apply Forall_cons_1 in Hcalls as [Hcalls _]. specialize (Hcalls rt Hk).
      pose proof (Hst Hcalls) as Hw1. rewrite Hw1.
      split; [reflexivity|]. exists w1. split; [exact Hw1|reflexivity].
Qed.

(** The options collected are those of the start followed by what every
    route contributes, in the order of the table. *)
Lemma collectOptions_flat_map (rts : list Route) (requestPath : string) (acc : list string) :
  collectOptions rts requestPath acc = acc ++ flat_map (contributes requestPath) rts.
Proof.
  revert acc. induction rts as [|rt rts IH]; intros acc; simpl.
  - by rewrite app_nil_r.
  - unfold contributes at 1.
    destruct (submatches rt requestPath); simpl; [|apply IH].
    rewrite IH. destruct (String.eqb (method rt) GET); simpl;
      by rewrite <- ?app_assoc.
Qed.

Lemma flat_map_delete_nil {A B} (f : A -> list B) (l : list A) (i : nat) (x : A) :
  l !! i = Some x -> f x = [] -> flat_map f (delete i l) = flat_map f l.
Proof.
  revert i. induction l as [|y l IH]; intros [|i] Hi Hx; simpl in *; try done.
  - inversion Hi; subst. by rewrite Hx.
  - f_equal. by apply IH.
Qed.

(** C7. A route whose leftmost match is not as long as the request path
    (the pattern matched a proper prefix, suffix or inner part only, or
    not at all) does not count as matching: its handler is not invoked by
    [ServeHTTP], it contributes nothing to the options of the path, and
    the [Public] text of [optionsRequest] is what it would be without the
    route. *)
Theorem partial_match_rejected (this : RouteMux) (rw : W) (r : http.Request)
    (i : nat) (rt : Route) :
  routes this !! i = Some rt ->
  GoStrings.len (hd EmptyString
                   (regexp.FindStringSubmatch (regex rt) (url.Path (http.URL r))))
    <> GoStrings.len (url.Path (http.URL r)) ->
  (forall r', (i, r') ∉ invoked (ServeHTTP origin this rw r)) /\
  contributes (url.Path (http.URL r)) rt = [] /\
  optionsStr this r =
    optionsStr {| routes := delete i (routes this); Logging := Logging this |} r.
Proof.
  intros Hi Hlen.
  assert (Hsub : submatches rt (url.Path (http.URL r)) = None).
  { unfold submatches.
    destruct (regexp.MatchString (regex rt) (url.Path (http.URL r))); simpl; [|done].
    apply Z.eqb_neq in Hlen. by rewrite Hlen. }
  assert (Hc : contributes (url.Path (http.URL r)) rt = []).
  { unfold contributes. by rewrite Hsub. }
  split; [|split; [exact Hc|]].
  - intros r' Hin.
    apply invoked_first in Hin. destruct Hin as [(rt' & Hrt' & Hsat) _].
    rewrite Hi in Hrt'. inversion Hrt'; subst rt'.
    unfold satisfies in Hsat. rewrite Hsub in Hsat.
    rewrite andb_true_iff in Hsat. destruct Hsat as [_ Hsat].
    apply bool_decide_eq_true in Hsat. by destruct Hsat.
  - unfold optionsStr. simpl. rewrite !collectOptions_flat_map.
    by rewrite (flat_map_delete_nil _ _ _ _ Hi Hc).
Qed.

End DispatchProperties.

(** The route [GET /user] matches only the first five bytes of [/user/42]:
    it is rejected. *)
Lemma partial_match_rejected_witness :
  let r := Examples.request GET "/user/42" "" in
  (forall r', (0%nat, r') ∉ invoked (Examples.serve Examples.plainMux r)) /\
  optionsStr Examples.plainMux r = "OPTIONS".
Proof.
  intros r.
  destruct (partial_match_rejected (E := Mini.engine) "*" Examples.plainMux
              http.newResponse r 0 Examples.plainRoute) as (Hinv & _ & Hopt).
  - reflexivity.
  - vm_compute. discriminate.
  - split; [exact Hinv|]. rewrite Hopt. vm_compute. reflexivity.
Defined.

(** Both routes of [overlapMux] satisfy [GET /user/bob]; the first one
    registered is served. *)
Example overlap_first_registered :
  let S := Examples.serve Examples.overlapMux (Examples.request GET "/user/bob" "") in
  map fst (invoked S) = [0%nat] /\
  http.sentBody (writer (served_w S)) = "by name" /\
  map (fun rt => satisfies rt (Examples.request GET "/user/bob" ""))
      (routes Examples.overlapMux) = [true; true].
Proof. vm_compute. repeat split. Qed.

(** Only the second route satisfies [GET /user/42]. *)
Example overlap_second :
  let S := Examples.serve Examples.overlapMux (Examples.request GET "/user/42" "") in
  map fst (invoked S) = [1%nat] /\
  http.sentBody (writer (served_w S)) = "by id".
Proof. vm_compute. repeat split. Qed.

(** The length test is the code's reading of a full match. On [/a/bc] the
    leftmost match of [/a/(b|bc)] takes the first branch and ends before
    the end of the path, so the route [/a/:x(b|bc)] does not satisfy the
    request, although its second branch covers the path: the request gets
    the not-found response. *)
Example alternation_first_branch :
  let r := Examples.request GET "/a/bc" "" in
  let S := Examples.serve Examples.altMux r in
  regexp.FindStringSubmatch (regex Examples.altRoute) "/a/bc" = ["/a/b"; "b"] /\
  satisfies Examples.altRoute r = false /\
  invoked S = [] /\ http.sentStatus (writer (served_w S)) = 404.
Proof. vm_compute. repeat split. Qed.

(** No route for the path: the not-found response. *)
Example unregistered_path :
  let S := Examples.serve Examples.userMux (Examples.request GET "/nothing" "") in
  invoked S = [] /\ started (served_w S) = true /\ status (served_w S) = 404 /\
  http.sentStatus (writer (served_w S)) = 404 /\
  http.sentBody (writer (served_w S)) = "404 page not found" +:+ String "010" EmptyString.
Proof. vm_compute. repeat split. Qed.

(** ** [sort.Strings] sorts *)

Section Sorting.

Lemma insert_Permutation (x : string) (l : list string) :
  Permutation (GoSort.insert x l) (x :: l).
Proof.
  induction l as [|y l IH]; simpl; [done|].
  destruct (String.leb x y); [done|].
  rewrite IH. apply perm_swap.
Qed.

Lemma Strings_Permutation (l : list string) : Permutation (GoSort.Strings l) l.
Proof.
  induction l as [|x l IH]; simpl; [done|].
  rewrite insert_Permutation. by constructor.
Qed.

Lemma insert_HdRel (x y : string) (l : list string) :
  str_le y x -> HdRel str_le y l -> HdRel str_le y (GoSort.insert x l).
Proof.
  intros Hyx Hl. destruct l as [|z l]; simpl; [by constructor|].
  destruct (String.leb x z); constructor; [done|].
  by inversion Hl.
Qed.

Lemma insert_Sorted (x : string) (l : list string) :
  Sorted str_le l -> Sorted str_le (GoSort.insert x l).
Proof.
  induction 1 as [|y l Hs IH Hhd]; simpl.
  - by repeat constructor.
  - destruct (String.leb x y) eqn:Hxy.
    + constructor; [by constructor|]. by constructor.
    + constructor; [exact IH|]. apply insert_HdRel; [|done].
      destruct (String.leb_total x y) as [H|H]; [congruence|exact H].
Qed.

Lemma Strings_Sorted (l : list string) : Sorted str_le (GoSort.Strings l).
Proof.
  induction l as [|x l IH]; simpl; [constructor|]. by apply insert_Sorted.
Qed.

End Sorting.

(** ** The response wrapper over the server's writer *)

Section Wrapper.
Context {E : regexp.Engine}.
Variable origin : string.

Let wrapper : http.ResponseWriter (responseWriter (W := http.response)) :=
  responseWriter_ResponseWriter origin.
Local Existing Instance wrapper.

(** [Write] on a response that has sent nothing: the two headers are set
    before the write is passed on, and go out with it. *)
Lemma Write_delivers_headers (p : string) (rw : http.response) :
  http.wroteHeader rw = false ->
  let w := http.Write p (wrap rw) in
  size w = GoStrings.len p /\ started w = true /\
  http.sentBody (writer w) = http.sentBody rw +:+ p /\
  http.sentStatus (writer w) = http.StatusOK /\
  http.sentHeader (writer w) !! "Content-Length" = Some [strconv.Itoa (GoStrings.len p)] /\
  http.sentHeader (writer w) !! "Access-Control-Allow-Origin" = Some [origin].
Proof.
  intros Hfresh. destruct rw as [hh wh si ss sh sb]. cbn [http.wroteHeader] in Hfresh.
  subst wh. unfold http.Set_.
  repeat split.
  - cbn -[insert lookup strconv.Itoa GoStrings.len]. unfold http.Set_.
    rewrite lookup_insert_ne; [|done]. by rewrite lookup_insert_eq.
  - cbn -[insert lookup strconv.Itoa GoStrings.len]. unfold http.Set_.
    by rewrite lookup_insert_eq.
Qed.

(** C6. [WriteHeader] with a final status on the wrapper of a response
    that has sent nothing records the status and sets [started], but passes
    the status on before it sets [Content-Length] and
    [Access-Control-Allow-Origin]: the header block that goes out with the
    status is the header map as it was, and the two headers reach the map
    only afterwards. *)
Theorem WriteHeader_headers_after_send (code : Z) (rw : http.response) :
  http.wroteHeader rw = false ->
  http.informational code = false ->
  let w := http.WriteHeader code (wrap rw) in
  status w = code /\ started w = true /\
  http.sentStatus (writer w) = code /\
  http.sentHeader (writer w) = http.handlerHeader rw /\
  http.handlerHeader (writer w) !! "Content-Length" = Some ["0"] /\
  http.handlerHeader (writer w) !! "Access-Control-Allow-Origin" = Some [origin].
Proof.
  intros Hfresh Hfinal. destruct rw as [hh wh si ss sh sb].
  cbn [http.wroteHeader] in Hfresh. subst wh.
  cbn [http.WriteHeader wrapper responseWriter_ResponseWriter].
  unfold responseWriter_WriteHeader.
  cbn [http.WriteHeader http.response_ResponseWriter wrap writer status started].
  unfold http.response_WriteHeader. cbn [http.wroteHeader]. rewrite Hfinal.
  unfold http.Set_. repeat split.
  - cbn -[insert lookup]. unfold http.Set_.
    rewrite lookup_insert_ne; [|done]. by rewrite lookup_insert_eq.
  - cbn -[insert lookup]. unfold http.Set_. by rewrite lookup_insert_eq.
Qed.

(** The request after the loop has the method and the path it came with. *)
Lemma dispatch_request (rts : list Route) (i0 : nat)
    (w : responseWriter (W := http.response)) (r : http.Request) :
  http.Method (dispatch origin rts i0 w r).1.2 = http.Method r /\
  url.Path (http.URL (dispatch origin rts i0 w r).1.2) = url.Path (http.URL r).
Proof.
  destruct (dispatch_cases origin rts i0 w r)
    as [[Hd _]|(k & rt & ms & _ & _ & _ & _ & Hd)]; by rewrite Hd.
Qed.

Lemma optionsStr_Path (this : RouteMux) (r r' : http.Request) :
  url.Path (http.URL r') = url.Path (http.URL r) -> optionsStr this r' = optionsStr this r.
Proof. unfold optionsStr. by intros ->. Qed.

(** An OPTIONS request ends with the aggregation: the last thing written
    to the header map is the [Public] text. *)
Lemma ServeHTTP_OPTIONS (this : RouteMux) (rw : http.response) (r : http.Request) :
  String.eqb (http.Method r) OPTIONS = true ->
  exists w1 r1,
    dispatch (W := http.response) origin (routes this) 0 (wrap rw) r =
      (w1, r1, invoked (ServeHTTP origin this rw r)) /\
    served_w (ServeHTTP origin this rw r) = optionsRequest this w1 r1 /\
    optionsStr this r1 = optionsStr this r.
Proof.
  intros Hm. unfold ServeHTTP. fold (wrap rw).
  pose proof (dispatch_request (routes this) 0 (wrap rw) r) as [HM HP].
  destruct (dispatch origin (routes this) 0 (wrap rw) r) as [[w1 r1] inv]. simpl in *.
  exists w1, r1. rewrite HM, Hm. simpl.
  split; [done|]. split; [done|]. by apply optionsStr_Path.
Qed.

Lemma optionsRequest_Public (this : RouteMux) (w : responseWriter (W := http.response))
    (r : http.Request) :
  http.handlerHeader (writer (optionsRequest this w r)) !! "Public" = Some [optionsStr this r].
Proof. simpl. unfold http.Set_. by rewrite lookup_insert_eq. Qed.

(** C4, as the router computes it. For an OPTIONS request the text stored
    under [Public] in the header map of the response is the [", "]-joined
    sorted list of OPTIONS and what every route whose pattern matches the
    whole path contributes, in any method: its method, and HEAD after it
    for a GET route. Nothing is removed from the list: a method that
    several matching routes contribute occurs as often. With a single
    route, a GET route that matches, the text is ["GET, HEAD, OPTIONS"]. *)
Theorem options_public_header (this : RouteMux) (rw : http.response) (r : http.Request) :
  String.eqb (http.Method r) OPTIONS = true ->
  let S := ServeHTTP origin this rw r in
  let path := url.Path (http.URL r) in
  (exists l,
      Sorted str_le l /\
      Permutation l (OPTIONS :: flat_map (contributes path) (routes this)) /\
      http.handlerHeader (writer (served_w S)) !! "Public" = Some [GoStrings.Join l ", "]) /\
  (forall rt, routes this = [rt] -> method rt = GET -> is_Some (submatches rt path) ->
              http.Get "Public" (http.handlerHeader (writer (served_w S))) = "GET, HEAD, OPTIONS").
Proof.
  intros Hm S path. subst S path.
  destruct (ServeHTTP_OPTIONS this rw r Hm) as (w1 & r1 & _ & -> & Hstr).
  split.
  - exists (GoSort.Strings (collectOptions (routes this) (url.Path (http.URL r)) [OPTIONS])).
    split; [apply Strings_Sorted|]. split.
    + rewrite Strings_Permutation. by rewrite collectOptions_flat_map.
    + rewrite optionsRequest_Public, Hstr. reflexivity.
  - intros rt Hrts Hget [ms Hms].
    unfold http.Get. rewrite optionsRequest_Public, Hstr.
    unfold optionsStr. rewrite Hrts. simpl. rewrite Hms, Hget. reflexivity.
Qed.

Lemma contributes_nil (rts : list Route) (requestPath : string) :
  (forall rt, rt ∈ rts -> submatches rt requestPath = None) ->
  flat_map (contributes requestPath) rts = [].
Proof.
  induction rts as [|rt rts IH]; intros Hnone; simpl; [done|].
  unfold contributes at 1. rewrite Hnone; [|by left]. simpl.
  apply IH. intros rt' Hrt'. apply Hnone. by right.
Qed.

(** C5. An OPTIONS request for a path that no route matches, on a response
    that has sent nothing: the response goes out with status 200, the
    header map as the server handed it over and no body; [Public: OPTIONS]
    is stored in the header map after the header block was sent, so it is
    not part of what was sent. *)
Theorem options_no_route (this : RouteMux) (rw : http.response) (r : http.Request) :
  String.eqb (http.Method r) OPTIONS = true ->
  (forall rt, rt ∈ routes this -> submatches rt (url.Path (http.URL r)) = None) ->
  http.wroteHeader rw = false ->
  let w := served_w (ServeHTTP origin this rw r) in
  http.sentStatus (writer w) = http.StatusOK /\
  http.sentBody (writer w) = http.sentBody rw /\
  http.sentHeader (writer w) = http.handlerHeader rw /\
  http.handlerHeader (writer w) !! "Public" = Some ["OPTIONS"].
Proof.
  intros Hm Hnone Hfresh w. subst w.
  destruct (ServeHTTP_OPTIONS this rw r Hm) as (w1 & r1 & Hd & -> & Hstr).
  assert (Hw1 : w1 = wrap rw).
  { destruct (dispatch_cases origin (routes this) 0 (wrap rw) r)
      as [[Hd' _]|(k & rt & ms & _ & Hk & _ & Hs & _)].
    - rewrite Hd' in Hd. by inversion Hd.
    - apply list_elem_of_lookup_2 in Hk. apply Hnone in Hk. congruence. }
  subst w1.
  assert (Hopt : optionsStr this r = "OPTIONS").
  { unfold optionsStr. rewrite collectOptions_flat_map.
    by rewrite (contributes_nil _ _ Hnone). }
  rewrite optionsRequest_Public, Hstr, Hopt.
  simpl. unfold http.response_WriteHeader. rewrite Hfresh. done.
Qed.

End Wrapper.

(** [WriteHeader(200)] on a fresh response: the status goes out with an
    empty header block. *)
Lemma WriteHeader_headers_after_send_witness :
  let w := responseWriter_WriteHeader "*" 200 (wrap http.newResponse) in
  http.sentStatus (writer w) = 200 /\
  http.sentHeader (writer w) = ∅ /\
  http.handlerHeader (writer w) !! "Content-Length" = Some ["0"] /\
  http.handlerHeader (writer w) !! "Access-Control-Allow-Origin" = Some ["*"].
Proof.
  destruct (WriteHeader_headers_after_send "*" 200 http.newResponse)
    as (_ & _ & Hs & Hh & Hcl & Hac).
  - reflexivity.
  - reflexivity.
  - intros w. subst w. repeat split; assumption.
Defined.

(** [Write] on a fresh response, by contrast, delivers both headers. *)
Example Write_fresh :
  let w := responseWriter_Write "*" "hello" (wrap http.newResponse) in
  size w = 5 /\
  http.sentHeader (writer w) !! "Content-Length" = Some ["5"] /\
  http.sentHeader (writer w) !! "Access-Control-Allow-Origin" = Some ["*"] /\
  http.sentBody (writer w) = "hello".
Proof. vm_compute. repeat split. Qed.

(** OPTIONS on the path of the single GET route of [plainMux]. *)
Lemma options_public_header_witness :
  let r := Examples.request OPTIONS "/user" "" in
  http.Get "Public" (http.handlerHeader (writer (served_w (Examples.serve Examples.plainMux r))))
  = "GET, HEAD, OPTIONS".
Proof.
  intros r.
  destruct (options_public_header (E := Mini.engine) "*" Examples.plainMux
              http.newResponse r) as [_ Hget].
  - reflexivity.
  - apply (Hget Examples.plainRoute).
    + reflexivity.
    + vm_compute. reflexivity.
    + exists ["/user"]. vm_compute. reflexivity.
Defined.

(** C4, as stated, fails: two GET routes match [/user/bob], and [Public]
    names GET and HEAD twice, where the methods taken as a set give
    ["GET, HEAD, OPTIONS"]. *)
Lemma options_not_deduplicated :
  let r := Examples.request OPTIONS "/user/bob" "" in
  let S := Examples.serve Examples.overlapMux r in
  http.Get "Public" (http.handlerHeader (writer (served_w S)))
    = "GET, GET, HEAD, HEAD, OPTIONS" /\
  optionsStr_as_set Examples.overlapMux r = "GET, HEAD, OPTIONS" /\
  http.Get "Public" (http.handlerHeader (writer (served_w S)))
    <> optionsStr_as_set Examples.overlapMux r.
Proof. vm_compute. repeat split. discriminate. Qed.

(** OPTIONS on a path without a route, on a fresh response: status 200
    and nothing else goes out. *)
Lemma options_no_route_witness :
  let r := Examples.request OPTIONS "/nothing" "" in
  let w := served_w (Examples.serve Examples.userMux r) in
  http.sentStatus (writer w) = 200 /\
  http.sentBody (writer w) = "" /\
  http.sentHeader (writer w) = ∅ /\
  http.sentHeader (writer w) !! "Public" = None /\
  http.handlerHeader (writer w) !! "Public" = Some ["OPTIONS"].
Proof.
  intros r w.
  destruct (options_no_route (E := Mini.engine) "*" Examples.userMux http.newResponse r)
    as (Hs & Hb & Hh & Hp).
  - reflexivity.
  - intros rt Hrt. apply list_elem_of_singleton in Hrt. subst rt.
    vm_compute. reflexivity.
  - reflexivity.
  - subst w. unfold Examples.serve. rewrite Hh.
    repeat split; first [assumption | reflexivity].
Defined.

(** ** The helper [ServeFormatted] *)

Section FormattedProperties.
Context {W : Type} {HW : http.ResponseWriter W} {V : Type}.
Variable jsonMarshalIndent : V -> string + string.
Variable xmlMarshal : V -> string + string.

Lemma ServeFormatted_json (w : W) (r : http.Request) (v : V) :
  http.Get "Accept" (http.ReqHeader r) = "application/json" ->
  ServeFormatted jsonMarshalIndent xmlMarshal w r v = ServeJson jsonMarshalIndent w v.
Proof. unfold ServeFormatted. by intros ->. Qed.

Lemma ServeFormatted_text_xml (w : W) (r : http.Request) (v : V) :
  http.Get "Accept" (http.ReqHeader r) = "text/xml" ->
  ServeFormatted jsonMarshalIndent xmlMarshal w r v = ServeXml xmlMarshal w v.
Proof. unfold ServeFormatted. by intros ->. Qed.

(** The one media type the constant [applicationXml] selects. *)
Lemma ServeFormatted_applicatoin_xml (w : W) (r : http.Request) (v : V) :
  http.Get "Accept" (http.ReqHeader r) = "applicatoin/xml" ->
  ServeFormatted jsonMarshalIndent xmlMarshal w r v = ServeXml xmlMarshal w v.
Proof. unfold ServeFormatted. by intros ->. Qed.

(** C8. A request that accepts [application/xml] is not served XML: the
    constant [applicationXml] is misspelt, the switch falls to its default
    and the resource is written as JSON. *)
Theorem application_xml_served_as_json (w : W) (r : http.Request) (v : V) :
  http.Get "Accept" (http.ReqHeader r) = "application/xml" ->
  ServeFormatted jsonMarshalIndent xmlMarshal w r v = ServeJson jsonMarshalIndent w v.
Proof. unfold ServeFormatted. by intros ->. Qed.

End FormattedProperties.

(** With encoders that write [{}] and [<v></v>], a client that accepts
    [application/xml] receives [{}]; [Content-Type] is set after the write
    and is not part of the header block that was sent. *)
Lemma application_xml_served_as_json_witness :
  let r := {| http.Method := GET;
              http.URL := {| url.Path := "/v"; url.RawQuery := "" |};
              http.Proto := "HTTP/1.1";
              http.ReqHeader := {[ "Accept" := ["application/xml"] ]};
              http.RemoteAddr := "" |} in
  let w := ServeFormatted (fun _ : unit => inl "{}") (fun _ : unit => inl "<v></v>")
             http.newResponse r () in
  http.sentBody w = "{}" /\
  http.sentHeader w !! "Content-Type" = None /\
  http.handlerHeader w !! "Content-Type" = Some ["application/json"].
Proof.
  intros r w. subst w.
  rewrite (application_xml_served_as_json (fun _ : unit => inl "{}")
             (fun _ : unit => inl "<v></v>") http.newResponse r ()).
  - vm_compute. repeat split.
  - vm_compute. reflexivity.
Defined.

(** ** Query strings: [ParseQuery] inverts [Encode] *)

Section QueryStrings.
Import GoStrings.

Lemma all_bytes_app (P : ascii -> bool) (a b : string) :
  all_bytes P (a +:+ b) = all_bytes P a && all_bytes P b.
Proof. induction a as [|c a IH]; simpl; [done|]. by rewrite IH, andb_assoc. Qed.

Lemma all_bytes_impl (P Q : ascii -> bool) (s : string) :
  (forall c, P c = true -> Q c = true) -> all_bytes P s = true -> all_bytes Q s = true.
Proof.
  intros HPQ. induction s as [|c s IH]; simpl; [done|].
  rewrite !andb_true_iff. intros [Hc Hs]. split; [by apply HPQ|by apply IH].
Qed.

Lemma Split_nonempty (s : string) (sep : ascii) : Split s sep <> [].
Proof.
  destruct s as [|c s]; simpl; [done|].
  destruct (Ascii.eqb c sep); [done|]. by destruct (Split s sep).
Qed.

Lemma Split_app (a b : string) (sep : ascii) :
  Split (a +:+ String sep b) sep = Split a sep ++ Split b sep.
Proof.
  induction a as [|c a IH]; simpl.
  - by rewrite Ascii.eqb_refl.
  - destruct (Ascii.eqb c sep); [by rewrite IH|].
    rewrite IH. pose proof (Split_nonempty a sep) as Hne.
    by destruct (Split a sep).
Qed.

Lemma Split_without (s : string) (sep : ascii) :
  all_bytes (fun c => negb (Ascii.eqb c sep)) s = true -> Split s sep = [s].
Proof.
  induction s as [|c s IH]; simpl; [done|].
  rewrite andb_true_iff. intros [Hc Hs]. apply negb_true_iff in Hc.
  rewrite Hc, IH; done.
Qed.

Lemma Split_Join (ps : list string) (sep : ascii) :
  ps <> [] ->
  Forall (fun p => all_bytes (fun c => negb (Ascii.eqb c sep)) p = true) ps ->
  Split (Join ps (String sep EmptyString)) sep = ps.
Proof.
  induction ps as [|p ps IH]; [done|]. intros _ Hall.
  inversion Hall as [|? ? Hp Hps]; subst.
  destruct ps as [|q ps].
  - simpl. by apply Split_without.
  - change (Join (p :: q :: ps) (String sep EmptyString))
      with (p +:+ String sep (Join (q :: ps) (String sep EmptyString))).
    rewrite Split_app, Split_without by done. rewrite IH; done.
Qed.

Lemma Cut_app (a b : string) (sep : ascii) :
  all_bytes (fun c => negb (Ascii.eqb c sep)) a = true ->
  Cut (a +:+ String sep b) sep = (a, b).
Proof.
  induction a as [|c a IH]; simpl.
  - by rewrite Ascii.eqb_refl.
  - rewrite andb_true_iff. intros [Hc Ha]. apply negb_true_iff in Hc.
    rewrite Hc, IH; done.
Qed.

Lemma Index_byte_absent (s : string) (c : ascii) :
  all_bytes (fun b => negb (Ascii.eqb c b)) s = true ->
  Index s (String c EmptyString) = -1.
Proof.
  induction s as [|b s IH]; simpl; [done|].
  rewrite andb_true_iff. intros [Hb Hs]. apply negb_true_iff in Hb.
  rewrite Hb. simpl. by rewrite IH.
Qed.

Lemma upperhex_escaped (n : N) : url.shouldEscape (url.upperhex n) = false.
Proof.
  unfold url.upperhex.
  repeat (match goal with
          | |- context [match ?x with _ => _ end] => destruct x
          end; try reflexivity).
Qed.

Lemma QueryEscape_bytes (s : string) : all_bytes escaped_byte (url.QueryEscape s) = true.
Proof.
  induction s as [|c s IH]; simpl; [done|].
  destruct (url.shouldEscape c) eqn:Hc.
  - destruct (Ascii.eqb c " "); simpl; rewrite IH.
    + reflexivity.
    + unfold escaped_byte. by rewrite !upperhex_escaped.
  - simpl. rewrite IH. unfold escaped_byte. by rewrite Hc.
Qed.

Lemma escaped_byte_not (c d : ascii) :
  escaped_byte d = false -> escaped_byte c = true -> negb (Ascii.eqb c d) = true.
Proof.
  intros Hd Hc. apply negb_true_iff. apply Ascii.eqb_neq. intros ->. congruence.
Qed.

Lemma QueryEscape_without (s : string) (d : ascii) :
  escaped_byte d = false ->
  all_bytes (fun c => negb (Ascii.eqb c d)) (url.QueryEscape s) = true.
Proof.
  intros Hd. eapply all_bytes_impl; [|apply QueryEscape_bytes].
  intros c. by apply escaped_byte_not.
Qed.

Lemma unhex_upperhex (c : ascii) :
  url.ishex (url.upperhex (N_of_ascii c / 16)) = true /\
  url.ishex (url.upperhex (N_of_ascii c mod 16)) = true /\
  ascii_of_N (url.unhex (url.upperhex (N_of_ascii c / 16)) * 16
              + url.unhex (url.upperhex (N_of_ascii c mod 16))) = c.
Proof. destruct c as [[] [] [] [] [] [] [] []]; vm_compute; done. Qed.

Lemma QueryUnescape_QueryEscape (s : string) :
  url.QueryUnescape (url.QueryEscape s) = Some s.
Proof.
  induction s as [|c s IH]; simpl; [done|].
  destruct (url.shouldEscape c) eqn:Hc.
  - destruct (Ascii.eqb c " ") eqn:Hsp.
    + apply Ascii.eqb_eq in Hsp. subst c. simpl. by rewrite IH.
    + simpl. destruct (unhex_upperhex c) as (H1 & H2 & H3).
      rewrite H1, H2, H3. simpl. by rewrite IH.
  - assert (Hp : Ascii.eqb c "%" = false).
    { apply Ascii.eqb_neq. intros ->. discriminate Hc. }
    assert (Hq : Ascii.eqb c "+" = false).
    { apply Ascii.eqb_neq. intros ->. discriminate Hc. }
    cbn [url.QueryUnescape]. rewrite Hp, Hq.
    fold url.QueryUnescape. by rewrite IH.
Qed.


Lemma parsePair_pairText (m : url.Values) (kx : string * string) :
  url.parsePair m (pairText kx) = url.Add kx.1 kx.2 m.
Proof.
  destruct kx as [k x]. unfold url.parsePair, pairText. cbn [fst snd].
  change (url.QueryEscape k +:+ "=" +:+ url.QueryEscape x)
    with (url.QueryEscape k +:+ String "=" (url.QueryEscape x)).
  assert (Hsemi : Contains (url.QueryEscape k +:+ String "=" (url.QueryEscape x)) ";" = false).
  { unfold Contains. rewrite Index_byte_absent; [done|].
    rewrite all_bytes_app. simpl.
    rewrite !(all_bytes_impl escaped_byte _ _ (fun c => escaped_byte_not c ";" eq_refl)
                (QueryEscape_bytes _)).
    done. }
  assert (Hne : String.eqb (url.QueryEscape k +:+ String "=" (url.QueryEscape x)) "" = false).
  { by destruct (url.QueryEscape k). }
  rewrite Hsemi, Hne.
  rewrite Cut_app by (by apply QueryEscape_without).
  by rewrite !QueryUnescape_QueryEscape.
Qed.

Lemma pairText_without_amp (kx : string * string) :
  all_bytes (fun c => negb (Ascii.eqb c "&")) (pairText kx) = true.
Proof.
  unfold pairText. rewrite !all_bytes_app.
  by rewrite !QueryEscape_without.
Qed.

Lemma fold_parsePair (kxs : list (string * string)) (m : url.Values) :
  fold_left url.parsePair (map pairText kxs) m = addAll kxs m.
Proof.
  revert m. induction kxs as [|kx kxs IH]; intros m; simpl; [done|].
  by rewrite parsePair_pairText, IH.
Qed.

(** Parsing the join of escaped pairs adds the pairs in order. *)
Lemma ParseQuery_pairs (kxs : list (string * string)) :
  url.ParseQuery (Join (map pairText kxs) "&") = addAll kxs ∅.
Proof.
  unfold url.ParseQuery. destruct kxs as [|kx kxs]; [reflexivity|].
  rewrite Split_Join.
  - apply fold_parsePair.
  - done.
  - apply List.Forall_forall. intros p Hp.
    apply in_map_iff in Hp. destruct Hp as (kx' & <- & _).
    apply pairText_without_amp.
Qed.

Lemma addAll_key (k : string) (l : list string) (m : url.Values) :
  l <> [] ->
  addAll (map (pair k) l) m = <[k := default [] (m !! k) ++ l]> m.
Proof.
  revert m. induction l as [|x l IH]; intros m Hl; [done|]. simpl.
  destruct l as [|y l].
  - reflexivity.
  - rewrite IH by done. unfold url.Add. simpl.
    rewrite lookup_insert_eq. simpl. rewrite insert_insert_eq.
    by rewrite <- app_assoc.
Qed.

Lemma addAll_app (a b : list (string * string)) (m : url.Values) :
  addAll (a ++ b) m = addAll b (addAll a m).
Proof. unfold addAll. by rewrite fold_left_app. Qed.

Lemma addAll_keys (f : string -> list string) (ks : list string) (m : url.Values) (k : string) :
  NoDup ks ->
  (forall k', k' ∈ ks -> m !! k' = None) ->
  addAll (flat_map (fun k' => map (pair k') (f k')) ks) m !! k =
    if decide (k ∈ ks)
    then match f k with [] => None | _ => Some (f k) end
    else m !! k.
Proof.
  revert m. induction ks as [|k0 ks IH]; intros m Hnd Hfresh; simpl.
  - done.
  - inversion Hnd as [|? ? Hk0 Hnd']; subst.
    rewrite addAll_app.
    assert (Hstep : forall k', addAll (map (pair k0) (f k0)) m !! k' =
                      if decide (k' = k0)
                      then match f k0 with [] => None | _ => Some (f k0) end
                      else m !! k').
    { intros k'. destruct (f k0) as [|x l] eqn:Hf.
      - simpl. destruct (decide (k' = k0)) as [->|]; [|done].
        apply Hfresh. by left.
      - rewrite addAll_key by done. rewrite (Hfresh k0) by (by left). simpl.
        destruct (decide (k' = k0)) as [->|Hne].
        + by rewrite lookup_insert_eq.
        + by rewrite lookup_insert_ne. }
    rewrite IH; [|done|].
    + rewrite Hstep. destruct (decide (k = k0)) as [->|Hne].
      * rewrite decide_False by done. rewrite decide_True by (by left). done.
      * destruct (decide (k ∈ ks)) as [Hin|Hnin].
        -- rewrite decide_True by (by right). done.
        -- rewrite decide_False; [done|].
           intros Hin. apply elem_of_cons in Hin. destruct Hin; done.
    + intros k' Hk'. rewrite Hstep.
      destruct (decide (k' = k0)) as [->|Hne]; [done|].
      apply Hfresh. by right.
Qed.

Lemma Encode_pairs (v : url.Values) :
  url.Encode v =
  Join (map pairText
          (flat_map (fun k => map (pair k) (default [] (v !! k)))
             (GoSort.Strings (map fst (map_to_list v))))) "&".
Proof.
  unfold url.Encode. f_equal.
  induction (GoSort.Strings (map fst (map_to_list v))) as [|k ks IH]; simpl; [done|].
  rewrite map_app, IH. f_equal.
  by rewrite map_map.
Qed.

(** [ParseQuery] inverts [Encode] on values without empty lists. *)
Lemma ParseQuery_Encode (v : url.Values) :
  no_empty_list v -> url.ParseQuery (url.Encode v) = v.
Proof.
  intros Hwf. rewrite Encode_pairs, ParseQuery_pairs.
  apply map_eq. intros k.
  assert (Hperm : Permutation (GoSort.Strings (map fst (map_to_list v)))
                              (map fst (map_to_list v)))
    by apply Strings_Permutation.
  rewrite addAll_keys.
  - destruct (decide (k ∈ GoSort.Strings (map fst (map_to_list v)))) as [Hin|Hnin].
    + rewrite Hperm in Hin. apply list_elem_of_fmap in Hin.
      destruct Hin as ([k' l] & -> & Hin). apply elem_of_map_to_list in Hin.
      simpl. rewrite Hin. simpl. destruct l; [|done].
      by apply Hwf in Hin.
    + rewrite lookup_empty. symmetry. apply eq_None_not_Some. intros [l Hl].
      apply Hnin. rewrite Hperm. apply list_elem_of_fmap.
      exists (k, l). split; [done|]. by apply elem_of_map_to_list.
  - rewrite Hperm. apply NoDup_fst_map_to_list.
  - intros k' _. apply lookup_empty.
Qed.

Lemma no_empty_list_Add (k x : string) (v : url.Values) :
  no_empty_list v -> no_empty_list (url.Add k x v).
Proof.
  intros Hwf k' l. unfold url.Add.
  destruct (decide (k = k')) as [->|Hne].
  - rewrite lookup_insert_eq. intros [= <-]. by destruct (default [] (v !! k')).
  - rewrite lookup_insert_ne by done. apply Hwf.
Qed.

Lemma no_empty_list_ParseQuery (q : string) : no_empty_list (url.ParseQuery q).
Proof.
  unfold url.ParseQuery.
  assert (H : forall ps m, no_empty_list m -> no_empty_list (fold_left url.parsePair ps m)).
  { induction ps as [|p ps IH]; intros m Hm; simpl; [done|].
    apply IH. unfold url.parsePair.
    destruct (Contains p ";"); [done|]. destruct (String.eqb p ""); [done|].
    destruct (Cut p "=") as [key value].
    destruct (url.QueryUnescape key); [|done].
    destruct (url.QueryUnescape value); [|done].
    by apply no_empty_list_Add. }
  apply H. intros k l Hl. by rewrite lookup_empty in Hl.
Qed.

End QueryStrings.

(** ** Path parameters *)

Section Parameters.
Import GoStrings.
Context {E : regexp.Engine}.

Lemma Index_lower (s substr : string) : -1 <= Index s substr.
Proof.
  induction s as [|c s IH]; cbn [Index].
  - destruct (HasPrefix "" substr); lia.
  - destruct (HasPrefix (String c s) substr); [lia|].
    destruct (Z.ltb_spec (Index s substr) 0); lia.
Qed.

(** The recorded name keeps the marker. *)
Lemma paramName_marker (part : string) :
  HasPrefix part ":" = true -> HasPrefix (paramName part) ":" = true.
Proof.
  intros Hp. unfold paramName.
  destruct (Index part "(" =? -1) eqn:Hi; [done|].
  apply Z.eqb_neq in Hi.
  destruct part as [|c rest]; [done|].
  assert (c = ":"%char) as ->.
  { unfold HasPrefix in Hp. apply andb_true_iff in Hp as [Hp _].
    apply Ascii.eqb_eq in Hp. done. }
  assert (Hstep : Index (String ":" rest) "(" =
                  if Index rest "(" <? 0 then -1 else Index rest "(" + 1) by reflexivity.
  rewrite Hstep in *. clear Hstep.
  pose proof (Index_lower rest "(") as Hlow.
  destruct (Z.ltb_spec (Index rest "(") 0) as [Hlt|Hge]; [done|].
  unfold slice_to.
  replace (Z.to_nat (Index rest "(" + 1)) with (S (Z.to_nat (Index rest "("))) by lia.
  reflexivity.
Qed.

(** The names in the parameter map are those of the parts that begin with
    the marker. *)
Lemma replaceParams_names (parts : list string) (j : nat) (params0 : gmap nat string)
    (i : nat) (name : string) :
  (replaceParams parts j params0).2 !! i = Some name ->
  params0 !! i = Some name \/
  exists part, part ∈ parts /\ HasPrefix part ":" = true /\ name = paramName part.
Proof.
  revert j params0. induction parts as [|part parts IH]; intros j params0;
    cbn [replaceParams].
  - by left.
  - destruct (HasPrefix part ":") eqn:Hp.
    + specialize (IH (S j) (<[j:=paramName part]> params0)).
      unfold paramName in IH at 1. revert IH.
      destruct (replaceParams parts (S j) _) as [rest' params']. cbn [snd].
      intros IH Hi. destruct (IH Hi) as [Hl|(p & Hin & Hpp & Hn)].
      * destruct (decide (j = i)) as [->|Hne].
        -- rewrite lookup_insert_eq in Hl. inversion Hl; subst.
           right. exists part. split; [by left|done].
        -- rewrite lookup_insert_ne in Hl by done. by left.
      * right. exists p. split; [by right|done].
    + specialize (IH j params0). revert IH.
      destruct (replaceParams parts j params0) as [rest' params']. cbn [snd].
      intros IH Hi.
      destruct (IH Hi) as [Hl|(p & Hin & Hpp & Hn)]; [by left|].
      right. exists p. split; [by right|done].
Qed.

(** Every name in the parameter map of a registered route begins with
    [":"], and is a part of the pattern cut before its first ["("]. *)
Lemma AddRoute_names (m pattern : string) (h : http.HandlerFunc) (this mux : RouteMux)
    (rt : Route) (i : nat) (name : string) :
  AddRoute m pattern h this = Some (mux, rt) ->
  params rt !! i = Some name ->
  HasPrefix name ":" = true /\
  exists part, part ∈ Split pattern "/" /\ HasPrefix part ":" = true /\ name = paramName part.
Proof.
  unfold AddRoute. intros Hadd Hname.
  pose proof (replaceParams_names (Split pattern "/") 0 ∅ i name) as Hnames.
  destruct (replaceParams (Split pattern "/") 0 ∅) as [parts' params'].
  destruct (regexp.Compile (Join parts' "/")); [|done].
  inversion Hadd; subst. cbn [params snd] in *.
  destruct (Hnames Hname) as [Hl|(part & Hin & Hp & ->)].
  - by rewrite lookup_empty in Hl.
  - split; [by apply paramName_marker|]. by exists part.
Qed.

Lemma Add_elem (k x : string) (v : url.Values) : x ∈ default [] (url.Add k x v !! k).
Proof.
  unfold url.Add. rewrite lookup_insert_eq. simpl. apply elem_of_app. right. by left.
Qed.

Lemma Add_mono (k x k' x' : string) (v : url.Values) :
  x ∈ default [] (v !! k) -> x ∈ default [] (url.Add k' x' v !! k).
Proof.
  intros Hx. unfold url.Add. destruct (decide (k' = k)) as [->|Hne].
  - rewrite lookup_insert_eq. simpl. apply elem_of_app. by left.
  - by rewrite lookup_insert_ne.
Qed.

Lemma addParams_mono (ps : gmap nat string) (i : nat) (ms : list string) (v : url.Values)
    (k x : string) :
  x ∈ default [] (v !! k) -> x ∈ default [] (addParams ps i ms v !! k).
Proof.
  revert i v. induction ms as [|m ms IH]; intros i v Hx; simpl; [done|].
  apply IH. by apply Add_mono.
Qed.

(** Sub-match [n] is among the values of the name at position [i + n]. *)
Lemma addParams_elem (ps : gmap nat string) (i : nat) (ms : list string) (v : url.Values)
    (n : nat) (m : string) :
  ms !! n = Some m ->
  m ∈ default [] (addParams ps i ms v !! default EmptyString (ps !! (i + n)%nat)).
Proof.
  revert i v n. induction ms as [|m0 ms IH]; intros i v [|n] Hn; simpl in *; try done.
  - inversion Hn; subst. rewrite Nat.add_0_r. apply addParams_mono. apply Add_elem.
  - replace (i + S n)%nat with (S i + n)%nat by lia. by apply IH.
Qed.

Lemma no_empty_list_addParams (ps : gmap nat string) (i : nat) (ms : list string)
    (v : url.Values) :
  no_empty_list v -> no_empty_list (addParams ps i ms v).
Proof.
  revert i v. induction ms as [|m ms IH]; intros i v Hv; simpl; [done|].
  apply IH. by apply no_empty_list_Add.
Qed.

(** The query the handler parses from the rewritten request is the
    request's own query with the sub-matches added. *)
Lemma Query_rewrite (rt : Route) (matches : list string) (r : http.Request) :
  url.Query (http.URL (rewrite rt matches r)) =
  addParams (params rt) 0 (tl matches) (url.Query (http.URL r)).
Proof.
  unfold rewrite, url.Query. simpl. apply ParseQuery_Encode.
  apply no_empty_list_addParams, no_empty_list_ParseQuery.
Qed.

Variable origin : string.
Context {W : Type} {HW : http.ResponseWriter W}.

(** The request a handler is given is the request rewritten for the route. *)
Lemma invoked_rewrite (this : RouteMux) (rw : W) (r : http.Request) (i : nat)
    (r' : http.Request) :
  (i, r') ∈ invoked (ServeHTTP origin this rw r) ->
  exists rt ms, routes this !! i = Some rt /\
                submatches rt (url.Path (http.URL r)) = Some ms /\
                r' = rewrite rt ms r.
Proof.
  rewrite ServeHTTP_invoked. intros Hi.
  destruct (dispatch_cases origin (routes this) 0 (wrap rw) r)
    as [[Hd _]|(k & rt & ms & _ & Hk & _ & Hs & Hd)];
    rewrite Hd in Hi; simpl in Hi.
  - by apply elem_of_nil in Hi.
  - apply list_elem_of_singleton in Hi. inversion Hi; subst.
    by exists rt, ms.
Qed.

End Parameters.

(** C1, as the router does it. (a) The name [AddRoute] records for a
    parameter is the part of the pattern from the marker [":"], included,
    up to the first ["("]: every recorded name begins with [":"]. (b) The
    handler of the route that serves a request finds each sub-match among
    the values of the query parameter whose name is recorded at the
    position of the sub-match (the empty name when none is). (c) With
    [GET /user/:id([0-9]+)], the handler of [/user/42] reads [42] under
    [":id"] and nothing under ["id"]; [/user/abc] satisfies no route and
    gets the not-found response. *)
Theorem path_parameters_in_query :
  (forall (E : regexp.Engine) (m pattern : string) (h : http.HandlerFunc)
          (this mux : RouteMux) (rt : Route) (i : nat) (name : string),
      AddRoute m pattern h this = Some (mux, rt) ->
      params rt !! i = Some name ->
      GoStrings.HasPrefix name ":" = true /\
      exists part, part ∈ GoStrings.Split pattern "/" /\
                   GoStrings.HasPrefix part ":" = true /\ name = paramName part) /\
  (forall (E : regexp.Engine) (origin : string) (W : Type) (HW : http.ResponseWriter W)
          (this : RouteMux) (rw : W) (r : http.Request),
      Forall (fun '(i, r') =>
                exists rt ms,
                  routes this !! i = Some rt /\
                  submatches rt (url.Path (http.URL r)) = Some ms /\
                  forall n m, tl ms !! n = Some m ->
                              m ∈ default [] (url.Query (http.URL r')
                                                !! default EmptyString (params rt !! n)))
             (invoked (ServeHTTP origin this rw r))) /\
  (let S := Examples.serve Examples.userMux (Examples.request GET "/user/42" "") in
   map (fun x => url.Query (http.URL x.2) !! ":id") (invoked S) = [Some ["42"]] /\
   map (fun x => url.Query (http.URL x.2) !! "id") (invoked S) = [None] /\
   http.sentBody (writer (served_w S)) = "42") /\
  (let S := Examples.serve Examples.userMux (Examples.request GET "/user/abc" "") in
   invoked S = [] /\ http.sentStatus (writer (served_w S)) = http.StatusNotFound).
Proof.
  split; [|split; [|split]].
  - intros E m pattern h this mux rt i name. apply AddRoute_names.
  - intros E origin W HW this rw r. apply Forall_forall. intros [i r'] Hin.
    apply invoked_rewrite in Hin. destruct Hin as (rt & ms & Hrt & Hms & ->).
    exists rt, ms. split; [done|]. split; [done|].
    intros n m Hn. rewrite Query_rewrite.
    by apply (addParams_elem (params rt) 0 (tl ms)).
  - vm_compute. repeat split.
  - vm_compute. repeat split.
Qed.

(** C1, as stated, fails: the captured [42] is not a value of the query
    parameter [id]; the handler finds it under [:id]. *)
Lemma parameter_name_keeps_marker :
  let S := Examples.serve Examples.userMux (Examples.request GET "/user/42" "") in
  let r' := Examples.request GET "/user/42" "%3Aid=42" in
  invoked S = [(0%nat, r')] /\
  url.Get "id" (url.Query (http.URL r')) = "" /\
  url.Query (http.URL r') !! "id" = None /\
  url.Get ":id" (url.Query (http.URL r')) = "42".
Proof. vm_compute. repeat split. Qed.

(** C10. The request a handler is given carries, as raw query, the
    encoding of the parsed query of the request with the sub-matches added;
    with no sub-match it is the encoding of the parsed query alone; and the
    writer the router ends with is the fresh wrapper after the handler has
    run on it with that request, followed by the steps after the loop. A
    route without parameters, [GET /user], served for the query
    [b=1&a=%7E], hands its handler the query [a=~&b=1]: other order, other
    escapes; a handler that writes the raw query it is given sends
    [a=~&b=1]. *)
Theorem query_string_reencoded :
  (forall (E : regexp.Engine) (origin : string) (W : Type) (HW : http.ResponseWriter W)
          (this : RouteMux) (rw : W) (r : http.Request),
      Forall (fun '(i, r') =>
                exists rt ms,
                  routes this !! i = Some rt /\
                  submatches rt (url.Path (http.URL r)) = Some ms /\
                  url.RawQuery (http.URL r') =
                    url.Encode (addParams (params rt) 0 (tl ms)
                                  (url.ParseQuery (url.RawQuery (http.URL r)))) /\
                  (tl ms = [] ->
                   url.RawQuery (http.URL r') =
                     url.Encode (url.ParseQuery (url.RawQuery (http.URL r)))) /\
                  served_w (ServeHTTP origin this rw r) =
                    (let w := http.serve (H := responseWriter_ResponseWriter origin)
                                (handler rt) (wrap rw) r' in
                     let w := if String.eqb (http.Method r) OPTIONS
                              then optionsRequest
                                     (H := responseWriter_ResponseWriter origin) this w r'
                              else w in
                     if negb (started w)
                     then http.NotFound (H := responseWriter_ResponseWriter origin) w
                     else w))
             (invoked (ServeHTTP origin this rw r))) /\
  (let r := Examples.request GET "/user" "b=1&a=%7E" in
   let S := Examples.serve Examples.plainMux r in
   params Examples.plainRoute = ∅ /\
   map (fun x => url.RawQuery (http.URL x.2)) (invoked S) = ["a=~&b=1"] /\
   url.RawQuery (http.URL (served_r S)) <> url.RawQuery (http.URL r)) /\
  (let r := Examples.request GET "/user" "b=1&a=%7E" in
   let S := Examples.serve Examples.rawMux r in
   params Examples.rawRoute = ∅ /\
   map fst (invoked S) = [0%nat] /\
   http.sentBody (writer (served_w S)) = "a=~&b=1").
Proof.
  split; [|split].
  - intros E origin W HW this rw r. apply Forall_forall. intros [i r'] Hin.
    destruct (ServeHTTP_cases origin this rw r)
      as [(Hinv & _ & _)|(k & rt & ms & _ & Hrt & Hms & Hinv & Hw)];
      rewrite Hinv in Hin.
    + by apply elem_of_nil in Hin.
    + apply list_elem_of_singleton in Hin. injection Hin as -> ->.
      exists rt, ms. split; [done|]. split; [done|]. split; [reflexivity|].
      split; [|exact Hw].
      intros Hnil. unfold rewrite. by rewrite Hnil.
  - vm_compute. repeat split. discriminate.
  - vm_compute. repeat split.
Qed.

(** ** [filepath.Clean] and [filepath.Join] *)

Section Paths.
Import GoStrings.

Lemma Split_bytes (s : string) (sep : ascii) :
  Forall (fun e => all_bytes (fun c => negb (Ascii.eqb c sep)) e = true) (Split s sep).
Proof.
  induction s as [|c s IH]; simpl.
  - by repeat constructor.
  - destruct (Ascii.eqb c sep) eqn:Hc.
    + by constructor.
    + destruct (Split s sep) as [|h t]; simpl.
      * repeat constructor. simpl. by rewrite Hc.
      * inversion IH; subst. constructor; [|done]. simpl. by rewrite Hc.
Qed.

Lemma cleanElems_app (rt : bool) (a b out : list string) :
  filepath.cleanElems rt (a ++ b) out = filepath.cleanElems rt b (filepath.cleanElems rt a out).
Proof.
  revert out. induction a as [|e a IH]; intros out; simpl; [done|].
  destruct (String.eqb e "" || String.eqb e "."); [apply IH|].
  destruct (String.eqb e ".."); [|apply IH].
  destruct out as [|top out'].
  - destruct rt; apply IH.
  - destruct (String.eqb top ".."); apply IH.
Qed.

(** Elements that name something other than [..] are written as they
    come. *)
Lemma cleanElems_push (rt : bool) (b out : list string) :
  Forall (fun e => named e /\ e <> "..") b ->
  filepath.cleanElems rt b out = rev b ++ out.
Proof.
  revert out. induction b as [|e b IH]; intros out Hb; simpl; [done|].
  inversion Hb as [|? ? [(He1 & He2 & _) He3] Hb']; subst.
  apply String.eqb_neq in He1, He2, He3. rewrite He1, He2, He3. simpl.
  rewrite IH by done. by rewrite <- app_assoc.
Qed.

Lemma cleanElems_named (rt : bool) (elems out : list string) :
  Forall (fun e => all_bytes (fun c => negb (Ascii.eqb c "/")) e = true) elems ->
  Forall named out ->
  Forall named (filepath.cleanElems rt elems out).
Proof.
  revert out. induction elems as [|e elems IH]; intros out He Hout; simpl; [done|].
  inversion He as [|? ? Hb He']; subst.
  destruct (String.eqb e "") eqn:H1; simpl; [by apply IH|].
  destruct (String.eqb e ".") eqn:H2; simpl; [by apply IH|].
  apply String.eqb_neq in H1, H2.
  destruct (String.eqb e "..") eqn:H3.
  - destruct out as [|top out'].
    + destruct rt; apply IH; try done. by repeat constructor.
    + destruct (String.eqb top "..").
      * apply IH; [done|]. by constructor.
      * apply IH; [done|]. by inversion Hout.
  - apply IH; [done|]. by constructor.
Qed.

(** In a rooted path no [..] is written. *)
Lemma cleanElems_rooted (elems out : list string) :
  Forall (fun e => e <> "..") out ->
  Forall (fun e => e <> "..") (filepath.cleanElems true elems out).
Proof.
  revert out. induction elems as [|e elems IH]; intros out Hout; simpl; [done|].
  destruct (String.eqb e "" || String.eqb e "."); [by apply IH|].
  destruct (String.eqb e "..") eqn:H3.
  - destruct out as [|top out']; [by apply IH|].
    destruct (String.eqb top "..") eqn:Ht.
    + apply String.eqb_eq in Ht. inversion Hout; subst. done.
    + apply IH. by inversion Hout.
  - apply String.eqb_neq in H3. apply IH. by constructor.
Qed.

(** Without [..] among the elements read, none is written. *)
Lemma cleanElems_no_parent (rt : bool) (elems out : list string) :
  Forall (fun e => e <> "..") elems ->
  Forall (fun e => e <> "..") out ->
  Forall (fun e => e <> "..") (filepath.cleanElems rt elems out).
Proof.
  revert out. induction elems as [|e elems IH]; intros out He Hout; simpl; [done|].
  inversion He as [|? ? He1 He']; subst.
  destruct (String.eqb e "" || String.eqb e "."); [by apply IH|].
  apply String.eqb_neq in He1 as He1'. rewrite He1'.
  apply IH; [done|]. by constructor.
Qed.

Lemma Clean_render (path : string) :
  filepath.Clean path =
  render (filepath.rooted path)
         (rev (filepath.cleanElems (filepath.rooted path) (Split path "/") [])).
Proof.
  unfold filepath.Clean, render. destruct (String.eqb path "") eqn:Hp; [|done].
  apply String.eqb_eq in Hp. by subst path.
Qed.

Lemma Join_cons_app (e : string) (l : list string) :
  l <> [] -> Join (e :: l) "/" = e +:+ String "/" (Join l "/").
Proof. by destruct l. Qed.

(** The parts of a rendered path: its elements, after an empty part when
    it is rooted; [""] or ["."] alone when it has no element. *)
Lemma Split_render (rt : bool) (l : list string) :
  Forall named l ->
  Split (render rt l) "/" =
    (if rt then [EmptyString] else []) ++
    match l with
    | [] => if rt then [EmptyString] else ["."]
    | _ => l
    end.
Proof.
  intros Hl. unfold render.
  assert (Hsplit : l <> [] -> Split (Join l "/") "/" = l).
  { intros Hne. apply Split_Join; [done|].
    eapply Forall_impl; [exact Hl|]. by intros e (_ & _ & He). }
  destruct l as [|e l].
  - by destruct rt.
  - destruct rt.
    + change (Split (String "/" (Join (e :: l) "/")) "/")
        with (EmptyString :: Split (Join (e :: l) "/") "/").
      by rewrite Hsplit.
    + by rewrite Hsplit.
Qed.

Lemma Elements_render (rt : bool) (l : list string) :
  Forall named l -> filepath.Elements (render rt l) = l.
Proof.
  intros Hl. unfold filepath.Elements. rewrite Split_render by done.
  assert (Hkeep : filter (fun e : string => e <> EmptyString /\ e <> ".") l = l).
  { induction Hl as [|e l (He1 & He2 & _) Hl IH]; [done|].
    rewrite filter_cons_True by done. by rewrite IH. }
  destruct l as [|e l].
  - by destruct rt.
  - destruct rt; [|exact Hkeep].
    cbn [app]. rewrite filter_cons_False by (by intros [? _]). exact Hkeep.
Qed.

Lemma cleanElems_empty (rt : bool) (elems out : list string) :
  filepath.cleanElems rt (EmptyString :: elems) out = filepath.cleanElems rt elems out.
Proof. reflexivity. Qed.

(** Cleaning what was rendered from elements other than [..] writes these
    elements. *)
Lemma cleanElems_render (rt rt' : bool) (l out : list string) :
  Forall (fun e => named e /\ e <> "..") l ->
  filepath.cleanElems rt (Split (render rt' l) "/") out = rev l ++ out.
Proof.
  intros Hl. rewrite Split_render.
  - destruct l as [|e l].
    + by destruct rt'.
    + destruct rt'; cbn [app]; [rewrite cleanElems_empty|]; by apply cleanElems_push.
  - eapply Forall_impl; [exact Hl|]. by intros e [He _].
Qed.

Lemma rooted_String (c : ascii) (s : string) :
  filepath.rooted (String c s) = Ascii.eqb "/" c.
Proof. unfold filepath.rooted. cbn [HasPrefix]. apply andb_true_r. Qed.

Lemma rooted_app (a b : string) :
  a <> EmptyString -> filepath.rooted (a +:+ b) = filepath.rooted a.
Proof. by destruct a. Qed.

Lemma rooted_render (rt : bool) (l : list string) :
  Forall named l -> filepath.rooted (render rt l) = rt.
Proof.
  intros Hl. unfold render. destruct rt; [reflexivity|].
  destruct l as [|e l]; [reflexivity|].
  inversion Hl as [|? ? (He1 & _ & He3) _]; subst.
  destruct e as [|c e]; [done|].
  simpl in He3. apply andb_true_iff in He3 as [Hc _].
  apply negb_true_iff in Hc. rewrite Ascii.eqb_sym in Hc.
  destruct l as [|e' l].
  - cbn [Join]. by rewrite rooted_String.
  - rewrite Join_cons_app, rooted_app by done. by rewrite rooted_String.
Qed.

(** The elements of a cleaned path. *)
Lemma Clean_elements (path : string) :
  let out := rev (filepath.cleanElems (filepath.rooted path) (Split path "/") []) in
  Forall named out /\
  filepath.Elements (filepath.Clean path) = out /\
  filepath.rooted (filepath.Clean path) = filepath.rooted path.
Proof.
  intros out.
  assert (Hout : Forall named out).
  { apply Forall_rev. apply cleanElems_named; [apply Split_bytes|constructor]. }
  rewrite Clean_render. fold out.
  split; [done|]. split; [by apply Elements_render|by apply rooted_render].
Qed.

(** C9. The file name the handler of [Static] computes, for a named
    directory and a request path that begins with the separator or has no
    [..] among its parts (a server hands over no other path: the path of
    a request line begins with the separator, or is empty or [*]): the
    name is below the cleaned directory, that is, it has the elements of
    the directory followed by elements that are not [..]. *)
Theorem static_path_below_root (dir : string) (r : http.Request) :
  dir <> EmptyString ->
  filepath.rooted (url.Path (http.URL r)) = true \/
  Forall (fun e => e <> "..") (Split (url.Path (http.URL r)) "/") ->
  below (filepath.Clean dir) (staticPath dir r).
Proof.
  intros Hdir Hpath. unfold staticPath.
  set (p := url.Path (http.URL r)) in *.
  (* the cleaned request path *)
  set (B := rev (filepath.cleanElems (filepath.rooted p) (Split p "/") [])).
  assert (HB : Forall (fun e => named e /\ e <> "..") B).
  { apply Forall_and. split.
    - apply Forall_rev. apply cleanElems_named; [apply Split_bytes|constructor].
    - apply Forall_rev. destruct Hpath as [Hrooted|Hnone].
      + rewrite Hrooted. apply cleanElems_rooted. constructor.
      + apply cleanElems_no_parent; [done|constructor]. }
  rewrite (Clean_render p). fold B.
  (* the joined name *)
  cbn [filepath.Join]. apply String.eqb_neq in Hdir as Hdir'. rewrite Hdir'.
  change (Join [dir; render (filepath.rooted p) B] "/")
    with (dir +:+ String "/" (render (filepath.rooted p) B)).
  set (joined := dir +:+ String "/" (render (filepath.rooted p) B)).
  assert (Hjr : filepath.rooted joined = filepath.rooted dir) by (by apply rooted_app).
  set (D := filepath.cleanElems (filepath.rooted dir) (Split dir "/") []).
  assert (HD : Forall named D).
  { apply cleanElems_named; [apply Split_bytes|constructor]. }
  assert (Hout : filepath.cleanElems (filepath.rooted dir) (Split joined "/") [] = rev B ++ D).
  { subst joined. rewrite Split_app, cleanElems_app. fold D.
    by apply cleanElems_render. }
  destruct (Clean_elements dir) as (_ & HelD & HrD). fold D in HelD.
  rewrite (Clean_render joined). rewrite Hjr, Hout.
  rewrite rev_app_distr, rev_involutive.
  assert (Hall : Forall named (rev D ++ B)).
  { apply Forall_app. split; [by apply Forall_rev|].
    eapply Forall_impl; [exact HB|]. by intros e [He _]. }
  split.
  - rewrite rooted_render by done. by rewrite HrD.
  - exists B. split.
    + rewrite Elements_render by done. by rewrite HelD.
    + eapply Forall_impl; [exact HB|]. by intros e [_ He].
Qed.

End Paths.

(** The handler [Static] installs serves the file of that name, for GET
    requests. *)
Lemma Static_handler {E : regexp.Engine} (ServeFile : http.Request -> string -> list http.Call)
    (pattern dir : string) (this mux : RouteMux) (rt : Route) (r : http.Request) :
  Static ServeFile pattern dir this = Some (mux, rt) ->
  method rt = GET /\ handler rt r = ServeFile r (staticPath dir r).
Proof.
  unfold Static, AddRoute.
  destruct (replaceParams (GoStrings.Split (pattern +:+ "(.+)") "/") 0 ∅) as [parts ps].
  destruct (regexp.Compile (GoStrings.Join parts "/")); [|done].
  intros [= <- <-]. done.
Qed.

(** The request [/files/../../etc/passwd] on the directory [/srv/public]. *)
Lemma static_path_below_root_witness :
  let r := Examples.request GET "/files/../../etc/passwd" "" in
  staticPath "/srv/public" r = "/srv/public/etc/passwd" /\
  below (filepath.Clean "/srv/public") (staticPath "/srv/public" r).
Proof.
  intros r. split.
  - vm_compute. reflexivity.
  - apply (static_path_below_root "/srv/public" r).
    + discriminate.
    + left. reflexivity.
Defined.

(** C9, as stated, fails: the two conditions are needed. Handed the path
    [files/../../../etc/passwd], which does not begin with the separator,
    the route that [Static] registers for [files/] on the directory
    [/srv/public] is served and the file asked for is [/etc/passwd]; and on
    an empty directory the path [/a] gives the file [/a], at the root of the
    file system. *)
Lemma static_path_leaves_root :
  (let r := Examples.request GET "files/../../../etc/passwd" "" in
   let S := Examples.serve Examples.staticMux r in
   map fst (invoked S) = [0%nat] /\
   http.sentBody (writer (served_w S)) = "/etc/passwd" /\
   staticPath "/srv/public" r = "/etc/passwd" /\
   ~ below (filepath.Clean "/srv/public") (staticPath "/srv/public" r)) /\
  (let r := Examples.request GET "/a" "" in
   staticPath "" r = "/a" /\
   ~ below (filepath.Clean "") (staticPath "" r)).
Proof.
  split.
  - split; [vm_compute; reflexivity|]. split; [vm_compute; reflexivity|].
    split; [vm_compute; reflexivity|].
    intros [_ (rest & Hel & _)]. vm_compute in Hel. discriminate Hel.
  - split; [vm_compute; reflexivity|].
    intros [Hrooted _]. vm_compute in Hrooted. discriminate Hrooted.
Qed.

(** The condition on the path is needed: handed a path that does not begin
    with the separator and has [..] among its parts, which no request
    line yields, the handler would leave the directory. *)
Example static_path_unrooted :
  staticPath "/srv/public" (Examples.request GET "../../etc/passwd" "") = "/etc/passwd".
Proof. vm_compute. reflexivity. Qed.

(** ** The matcher [Mini] keeps the library's promise *)

Lemma Mini_agree : regexp.agree Mini.engine.
Proof.
  intros re s. cbn [regexp.MatchString regexp.FindStringSubmatch Mini.engine].
  destruct (Mini.search re s); split; done.
Qed.

(** With an engine that keeps the promise, [matches[0]] exists whenever
    the router reads it. *)
Lemma submatches_nonempty {E : regexp.Engine} (rt : Route) (requestPath : string)
    (matches : list string) :
  regexp.agree E ->
  submatches rt requestPath = Some matches ->
  matches <> [] /\
  GoStrings.len (hd EmptyString matches) = GoStrings.len requestPath.
Proof.
  intros Hagree. unfold submatches.
  destruct (regexp.MatchString (regex rt) requestPath) eqn:Hm; [|done]. simpl.
  destruct (GoStrings.len (hd EmptyString (regexp.FindStringSubmatch (regex rt) requestPath))
            =? GoStrings.len requestPath) eqn:Hlen; [|done]. simpl.
  intros [= <-]. split; [by apply Hagree|by apply Z.eqb_eq].
Qed.

(** ** Registration *)

(** [AddRoute] appends: registering routes one after the other gives the
    table of the routes in that order. *)
Example register_table (h1 h2 : http.HandlerFunc) :
  Examples.register [(GET, "/user/:name([a-z]+)", h1); (GET, "/user/:id", h2)] =
  Examples.table [Examples.route GET "/user/:name([a-z]+)" h1;
                  Examples.route GET "/user/:id" h2].
Proof. reflexivity. Qed.

(** The pattern and the parameter map [AddRoute] makes of
    [/user/:id([0-9]+)/:name]. *)
Example replaceParams_user :
  replaceParams (GoStrings.Split "/user/:id([0-9]+)/:name" "/") 0 ∅ =
  ([""; "user"; "([0-9]+)"; "([^/]+)"], <[1%nat := ":name"]> (<[0%nat := ":id"]> ∅)).
Proof. vm_compute. reflexivity. Qed.

(** A pattern that is no regular expression: [AddRoute] panics. *)
Example AddRoute_panics (h : http.HandlerFunc) :
  AddRoute GET "/user/:id([0-9]+" h Examples.emptyMux = None.
Proof. reflexivity. Qed.

(** ** The match is a part of the path *)

Section Whole.
Import GoStrings.

Lemma rest_of_refl (s : string) : rest_of s s.
Proof. by exists EmptyString. Qed.

Lemma append_cons (c : ascii) (a b : string) : String c a +:+ b = String c (a +:+ b).
Proof. reflexivity. Qed.

Lemma append_assoc (a b c : string) : a +:+ b +:+ c = (a +:+ b) +:+ c.
Proof. induction a as [|ch a IH]; [done|]. by rewrite !append_cons, IH. Qed.

Lemma append_empty (a : string) : a +:+ EmptyString = a.
Proof. induction a as [|ch a IH]; [done|]. by rewrite append_cons, IH. Qed.

Lemma rest_of_trans (a b c : string) : rest_of a b -> rest_of b c -> rest_of a c.
Proof. intros [x ->] [y ->]. exists (y +:+ x). apply append_assoc. Qed.

Lemma rest_of_tail (c : ascii) (s : string) : rest_of s (String c s).
Proof. by exists (String c EmptyString). Qed.

Lemma length_append (a b : string) :
  String.length (a +:+ b) = (String.length a + String.length b)%nat.
Proof. induction a as [|c a IH]; simpl; [done|]. by rewrite IH. Qed.

Lemma take_append (a b : string) :
  take (String.length (a +:+ b) - String.length b) (a +:+ b) = a.
Proof.
  rewrite length_append. replace (String.length a + String.length b - String.length b)%nat
    with (String.length a) by lia.
  induction a as [|c a IH]; [by destruct b|].
  rewrite append_cons. simpl. by rewrite IH.
Qed.

(** A search calls its continuation on what is left of the input. *)
Lemma run_rest (r : Mini.re) :
  forall s c k res,
    Mini.run r s c k = Some res ->
    exists s' c', rest_of s' s /\ k s' c' = Some res.
Proof.
  assert (Hstar : forall ma : string -> gmap nat string -> Mini.cont ->
                                option (string * gmap nat string),
             (forall s c k res, ma s c k = Some res ->
                                exists s' c', rest_of s' s /\ k s' c' = Some res) ->
             forall n s c k res,
               Mini.star ma k n s c = Some res ->
               exists s' c', rest_of s' s /\ k s' c' = Some res).
  { intros ma Hma n. induction n as [|n IH]; intros s c k res; simpl.
    - intros Hk. exists s, c. split; [apply rest_of_refl|done].
    - destruct (ma s c _) as [x|] eqn:Hx.
      + intros [= ->]. apply Hma in Hx. destruct Hx as (s1 & c1 & Hs1 & Hx).
        destruct (String.length s1 <? String.length s)%nat; [|done].
        apply IH in Hx. destruct Hx as (s2 & c2 & Hs2 & Hx).
        exists s2, c2. split; [by eapply rest_of_trans|done].
      + intros Hk. exists s, c. split; [apply rest_of_refl|done]. }
  induction r as [|a| |neg ranges|a IHa b IHb|a IHa b IHb|a IHa|a IHa|a IHa|n a IHa];
    intros s c k res; simpl.
  - intros Hk. exists s, c. split; [apply rest_of_refl|done].
  - destruct s as [|b s']; [done|]. destruct (Ascii.eqb a b); [|done].
    intros Hk. exists s', c. split; [apply rest_of_tail|done].
  - destruct s as [|b s']; [done|]. destruct (Ascii.eqb b "010"); [done|].
    intros Hk. exists s', c. split; [apply rest_of_tail|done].
  - destruct s as [|b s']; [done|]. destruct (xorb neg (Mini.inClass ranges b)); [|done].
    intros Hk. exists s', c. split; [apply rest_of_tail|done].
  - intros H. apply IHa in H. destruct H as (s1 & c1 & Hs1 & H).
    apply IHb in H. destruct H as (s2 & c2 & Hs2 & H).
    exists s2, c2. split; [by eapply rest_of_trans|done].
  - destruct (Mini.run a s c k) as [x|] eqn:Hx.
    + intros [= ->]. by apply IHa in Hx.
    + apply IHb.
  - by apply Hstar.
  - intros H. apply IHa in H. destruct H as (s1 & c1 & Hs1 & H).
    apply (Hstar _ IHa) in H. destruct H as (s2 & c2 & Hs2 & H).
    exists s2, c2. split; [by eapply rest_of_trans|done].
  - destruct (Mini.run a s c k) as [x|] eqn:Hx.
    + intros [= ->]. by apply IHa in Hx.
    + intros Hk. exists s, c. split; [apply rest_of_refl|done].
  - intros H. apply IHa in H. destruct H as (s1 & c1 & Hs1 & H). eauto.
Qed.

(** The text a search takes from the front of its input. *)
Lemma search_step (p : Mini.prog) (s : string) :
  Mini.search p s =
  match Mini.run (Mini.expr p) s ∅ (fun s' c' => Some (s', c')) with
  | Some (s', c') =>
      take (String.length s - String.length s') s
        :: map (fun i => default EmptyString (c' !! i)) (seq 0 (Mini.numSubexp p))
  | None =>
      match s with
      | EmptyString => []
      | String _ s' => Mini.search p s'
      end
  end.
Proof. by destruct s. Qed.

Lemma Mini_within : within Mini.engine.
Proof.
  intros re s. cbn [regexp.FindStringSubmatch Mini.engine].
  induction s as [|ch s IH]; intros m ms; rewrite search_step;
    destruct (Mini.run (Mini.expr re) _ ∅ _) as [[s' c']|] eqn:Hrun.
  - intros [= <- _]. by exists EmptyString, EmptyString.
  - done.
  - apply run_rest in Hrun. destruct Hrun as (s1 & c1 & [a Ha] & [= -> ->]).
    intros [= <- _]. change (S (String.length s)) with (String.length (String ch s)).
    rewrite Ha, take_append. by exists EmptyString, s'.
  - intros H. destruct (IH _ _ H) as (a & b & ->). by exists (String ch a), b.
Qed.

(** With such an engine the router serves a route only when the match is
    the path itself. *)
Lemma submatches_whole {E : regexp.Engine} (rt : Route) (requestPath : string)
    (matches : list string) :
  regexp.agree E -> within E ->
  submatches rt requestPath = Some matches ->
  hd EmptyString matches = requestPath.
Proof.
  intros Hagree Hwithin Hsub.
  destruct (submatches_nonempty rt requestPath matches Hagree Hsub) as [Hne Hlen].
  unfold submatches in Hsub.
  destruct (regexp.MatchString (regex rt) requestPath); [|done]. simpl in Hsub.
  destruct (len _ =? len requestPath); [|done]. simpl in Hsub.
  injection Hsub as Hsub. destruct matches as [|m ms]; [done|].
  apply Hwithin in Hsub. destruct Hsub as (a & b & Hs). cbn [hd] in *.
  unfold len in Hlen. apply Nat2Z.inj in Hlen. subst requestPath.
  rewrite !length_append in Hlen.
  destruct a; [|simpl in Hlen; lia]. destruct b; [|simpl in Hlen; lia].
  change (EmptyString +:+ m +:+ EmptyString) with (m +:+ EmptyString).
  by rewrite append_empty.
Qed.

End Whole.

(** ** The library models on the library's own examples *)

Example Clean_examples :
  map filepath.Clean
      ["abc//def//ghi"; "abc/./def"; "/./abc/def"; "abc/def/ghi/../jkl";
       "abc/def/../../.."; "/abc/def/../../.."; "abc/def/../../../ghi/jkl/../../../mno";
       "/../abc"; "abc/./../def"; "abc/../../././../def"; ""; "abc/"; "//abc"; "/"; "../.."]
  = ["abc/def/ghi"; "abc/def"; "/abc/def"; "abc/def/jkl";
     ".."; "/"; "../../mno";
     "/abc"; "def"; "../../def"; "."; "abc"; "/abc"; "/"; "../.."].
Proof. vm_compute. reflexivity. Qed.

Example Join_examples :
  map filepath.Join [["a"; "b"]; ["a"; ""]; [""; "b"]; ["/"; "a"]; ["a/"; "/b"]; [""; ""];
                     ["/srv/public"; "/etc/passwd"]]
  = ["a/b"; "a"; "b"; "/a"; "a/b"; ""; "/srv/public/etc/passwd"].
Proof. vm_compute. reflexivity. Qed.

Example QueryEscape_examples :
  map url.QueryEscape [""; "abc"; "one two"; "10%"; " ?&=#+%!<>:/@$'()*,;~-_."]
  = [""; "abc"; "one+two"; "10%25";
     "+%3F%26%3D%23%2B%25%21%3C%3E%3A%2F%40%24%27%28%29%2A%2C%3B~-_."].
Proof. vm_compute. reflexivity. Qed.

Example QueryUnescape_examples :
  map url.QueryUnescape ["a+b"; "a%20b"; "%zz"; "%4"; "%7e"]
  = [Some "a b"; Some "a b"; None; None; Some "~"].
Proof. vm_compute. reflexivity. Qed.

Example ParseQuery_example :
  url.Encode (url.ParseQuery "b=1&a=2&a=%7e+x&c;d=1&&e&%zz=1") = "a=2&a=~+x&b=1&e=".
Proof. vm_compute. reflexivity. Qed.

Example FindStringSubmatch_examples :
  map (fun '(pattern, s) => (fun p => Mini.search p s) <$> Mini.Compile pattern)
      [("/user/([0-9]+)", "/user/42"); ("/user/([0-9]+)", "/user/abc");
       ("/user/([^/]+)", "/user/abc/def"); ("a(x*)b|c", "zzc"); ("(a|ab)(c|bcd)", "abcd");
       ("/files/(.+)", "/files/../../etc/passwd"); ("(a", "a")]
  = [Some ["/user/42"; "42"]; Some [];
     Some ["/user/abc"; "abc"]; Some ["c"; ""]; Some ["abcd"; "a"; "bcd"];
     Some ["/files/../../etc/passwd"; "../../etc/passwd"]; None].
Proof. vm_compute. reflexivity. Qed.

(** * Further properties of the router *)

(** ** Registration: what [AddRoute] compiles and records *)

Section Registration.
Import GoStrings.
Context {E : regexp.Engine}.

Lemma replaceParams_parts (parts : list string) (j : nat) (ps : gmap nat string) :
  (replaceParams parts j ps).1 = map partExpr parts.
Proof.
  revert j ps. induction parts as [|part parts IH]; intros j ps; cbn [replaceParams map].
  - reflexivity.
  - unfold partExpr at 1, isParam. destruct (HasPrefix part ":").
    + specialize (IH (S j) (<[j:=if Index part "(" =? -1 then part
                                 else slice_to part (Index part "(")]> ps)).
      destruct (replaceParams parts (S j) _) as [rest' params']. cbn [fst] in *.
      by rewrite IH.
    + specialize (IH j ps). destruct (replaceParams parts j ps) as [rest' params'].
      cbn [fst] in *. by rewrite IH.
Qed.

Lemma replaceParams_params (parts : list string) (j : nat) (ps : gmap nat string) (i : nat) :
  (replaceParams parts j ps).2 !! i =
  if ((j <=? i) && (i <? j + length (List.filter isParam parts)))%nat
  then map paramName (List.filter isParam parts) !! (i - j)%nat
  else ps !! i.
Proof.
  revert j ps. induction parts as [|part parts IH]; intros j ps;
    cbn [replaceParams List.filter].
  - cbn [snd length]. rewrite Nat.add_0_r.
    destruct (Nat.leb_spec j i), (Nat.ltb_spec i j); try lia; reflexivity.
  - change (HasPrefix part ":") with (isParam part). destruct (isParam part).
    + specialize (IH (S j) (<[j:=paramName part]> ps)). unfold paramName in IH at 1.
      revert IH. destruct (replaceParams parts (S j) _) as [rest' params']. cbn [snd].
      intros ->. cbn [length map].
      destruct (Nat.leb_spec (S j) i), (Nat.ltb_spec i (S j + length (List.filter isParam parts))),
        (Nat.leb_spec j i), (Nat.ltb_spec i (j + S (length (List.filter isParam parts))));
        try lia; cbn [andb].
      all: first [ replace (i - j)%nat with (S (i - S j)) by lia; reflexivity
                 | assert (i = j) as -> by lia;
                   rewrite lookup_insert_eq, Nat.sub_diag; reflexivity
                 | rewrite lookup_insert_ne by lia; reflexivity ].
    + specialize (IH j ps). revert IH.
      destruct (replaceParams parts j ps) as [rest' params']. cbn [snd]. by intros ->.
Qed.

Lemma take_drop (n : nat) (s : string) : take n s +:+ drop n s = s.
Proof.
  revert s. induction n as [|n IH]; intros [|c s]; try reflexivity.
  cbn [take drop]. rewrite append_cons. by rewrite IH.
Qed.

(** Where [Index] finds the text, the text begins. *)
Lemma Index_found (s substr : string) :
  0 <= Index s substr -> HasPrefix (drop (Z.to_nat (Index s substr)) s) substr = true.
Proof.
  induction s as [|c s IH]; cbn [Index].
  - destruct (HasPrefix "" substr) eqn:Hp; [done|lia].
  - destruct (HasPrefix (String c s) substr) eqn:Hp; [done|].
    pose proof (Index_lower s substr) as Hlow.
    destruct (Z.ltb_spec (Index s substr) 0) as [Hlt|Hge]; [lia|].
    intros _. replace (Z.to_nat (Index s substr + 1)) with (S (Z.to_nat (Index s substr))) by lia.
    cbn [drop]. by apply IH.
Qed.

Lemma Join_cons (e : string) (l : list string) (sep : string) :
  l <> [] -> Join (e :: l) sep = e +:+ sep +:+ Join l sep.
Proof. by destruct l. Qed.

Lemma Join_head (c : ascii) (h : string) (t : list string) (sep : string) :
  Join (String c h :: t) sep = String c (Join (h :: t) sep).
Proof. by destruct t. Qed.

(** Joining what was split gives the text back. *)
Lemma Join_Split (s : string) (sep : ascii) :
  Join (Split s sep) (String sep EmptyString) = s.
Proof.
  induction s as [|c s IH]; [reflexivity|]. cbn [Split].
  pose proof (Split_nonempty s sep) as Hne.
  destruct (Ascii.eqb c sep) eqn:Hc.
  - apply Ascii.eqb_eq in Hc. subst c. rewrite Join_cons by done. by rewrite IH.
  - destruct (Split s sep) as [|h t]; [done|]. by rewrite Join_head, IH.
Qed.

Lemma map_partExpr_literal (parts : list string) :
  Forall (fun part => isParam part = false) parts -> map partExpr parts = parts.
Proof.
  induction 1 as [|part parts Hp _ IH]; [done|]. cbn [map].
  unfold partExpr at 1. by rewrite Hp, IH.
Qed.

Lemma filter_isParam_literal (parts : list string) :
  Forall (fun part => isParam part = false) parts -> List.filter isParam parts = [].
Proof.
  induction 1 as [|part parts Hp _ IH]; [done|]. cbn [List.filter]. by rewrite Hp.
Qed.

(** X1. [AddRoute] compiles the pattern with every part that begins with
    [":"] replaced by its text from the first ["("], or by [([^/]+)] when it
    has none, and every other part as it is. It panics exactly when that
    text does not compile; otherwise the new route has the method and the
    handler given and is appended at the end of the table, whose logging
    flag is kept. *)
Theorem AddRoute_compiles (m pattern : string) (h : http.HandlerFunc) (this : RouteMux) :
  let text := Join (map partExpr (Split pattern "/")) "/" in
  (AddRoute m pattern h this = None <-> regexp.Compile text = None) /\
  (forall mux rt,
      AddRoute m pattern h this = Some (mux, rt) ->
      regexp.Compile text = Some (regex rt) /\
      method rt = m /\ handler rt = h /\
      routes mux = routes this ++ [rt] /\ Logging mux = Logging this).
Proof.
  intros text. subst text. unfold AddRoute.
  pose proof (replaceParams_parts (Split pattern "/") 0 ∅) as Hparts.
  destruct (replaceParams (Split pattern "/") 0 ∅) as [parts ps]. cbn [fst] in Hparts.
  subst parts. destruct (regexp.Compile _) as [re|].
  - split; [split; discriminate|]. by intros mux rt [= <- <-].
  - split; [done|]. discriminate.
Qed.

(** X2. The parameter map of a registered route holds, at the positions
    0, 1, 2, ... and nowhere else, the names of the parts that begin with
    [":"], in the order of the pattern. A part with an override is cut in
    two: the name, then the expression, which begins with ["("]; without
    one the name is the whole part. *)
Theorem AddRoute_parameter_positions (m pattern : string) (h : http.HandlerFunc)
    (this mux : RouteMux) (rt : Route) :
  AddRoute m pattern h this = Some (mux, rt) ->
  (forall k, params rt !! k =
             map paramName (List.filter isParam (Split pattern "/")) !! k) /\
  (forall part, isParam part = true ->
                if Index part "(" =? -1 then paramName part = part
                else paramName part +:+ partExpr part = part /\
                     HasPrefix (partExpr part) "(" = true).
Proof.
  intros Hadd. split.
  - intros k. unfold AddRoute in Hadd.
    pose proof (replaceParams_params (Split pattern "/") 0 ∅ k) as Hps.
    destruct (replaceParams (Split pattern "/") 0 ∅) as [parts ps]. cbn [snd] in Hps.
    destruct (regexp.Compile _); [|done]. injection Hadd as _ <-. cbn [params].
    rewrite Hps. rewrite Nat.sub_0_r. cbn [Nat.leb andb Nat.add].
    destruct (Nat.ltb_spec k (length (List.filter isParam (Split pattern "/")))); [done|].
    rewrite lookup_empty. symmetry. apply lookup_ge_None_2.
    by rewrite length_map.
  - intros part Hp. unfold paramName, partExpr. rewrite Hp.
    destruct (Z.eqb_spec (Index part "(") (-1)) as [Heq|Hne]; [done|].
    pose proof (Index_lower part "(") as Hlow.
    split; [apply take_drop|]. apply Index_found. lia.
Qed.

(** X3. A pattern none of whose parts begins with [":"] is compiled as it
    is written, and its route has an empty parameter map. *)
Theorem AddRoute_literal_pattern (m pattern : string) (h : http.HandlerFunc)
    (this : RouteMux) :
  Forall (fun part => isParam part = false) (Split pattern "/") ->
  AddRoute m pattern h this =
  match regexp.Compile pattern with
  | None => None
  | Some re =>
      Some ({| routes := routes this ++ [mkRoute m re ∅ h]; Logging := Logging this |},
            mkRoute m re ∅ h)
  end.
Proof.
  intros Hlit. unfold AddRoute.
  pose proof (replaceParams_parts (Split pattern "/") 0 ∅) as Hparts.
  assert (Hps : (replaceParams (Split pattern "/") 0 ∅).2 = ∅).
  { apply map_eq. intros k. rewrite replaceParams_params.
    rewrite filter_isParam_literal by done. cbn [length Nat.leb andb].
    rewrite Nat.add_0_r. by destruct (Nat.ltb_spec k 0); [lia|]. }
  destruct (replaceParams (Split pattern "/") 0 ∅) as [parts ps]. cbn [fst snd] in *.
  subst parts ps. rewrite map_partExpr_literal by done.
  by rewrite Join_Split.
Qed.

End Registration.

Lemma AddRoute_parameter_positions_witness :
  let rt := Examples.route GET "/user/:id([0-9]+)/:name" (Examples.say "") in
  AddRoute (E := Mini.engine) GET "/user/:id([0-9]+)/:name" (Examples.say "")
    Examples.emptyMux = Some (Examples.table [rt], rt) /\
  params rt !! 0%nat = Some ":id" /\ params rt !! 1%nat = Some ":name" /\
  params rt !! 2%nat = None.
Proof.
  intros rt.
  assert (Hadd : AddRoute (E := Mini.engine) GET "/user/:id([0-9]+)/:name" (Examples.say "")
                   Examples.emptyMux = Some (Examples.table [rt], rt)) by reflexivity.
  split; [exact Hadd|].
  destruct (AddRoute_parameter_positions _ _ _ _ _ _ Hadd) as [Hpos _].
  rewrite !Hpos. vm_compute. repeat split.
Defined.

Lemma AddRoute_literal_pattern_witness :
  AddRoute (E := Mini.engine) GET "/user" (Examples.say "users") Examples.emptyMux =
  match Mini.Compile "/user" with
  | None => None
  | Some re =>
      Some (Examples.table [mkRoute (E := Mini.engine) GET re ∅ (Examples.say "users")],
            mkRoute (E := Mini.engine) GET re ∅ (Examples.say "users"))
  end.
Proof.
  apply (AddRoute_literal_pattern (E := Mini.engine) GET "/user" (Examples.say "users")
           Examples.emptyMux).
  vm_compute. repeat constructor.
Defined.

(** ** Registration and dispatch together *)

Section Priority.
Context {E : regexp.Engine}.
Variable origin : string.
Context {W : Type} {HW : http.ResponseWriter W}.

Let wrapper : http.ResponseWriter (responseWriter (W := W)) :=
  responseWriter_ResponseWriter origin.
Local Existing Instance wrapper.

(** Routes after a satisfying route play no part. *)
Lemma dispatch_app_served (rts more : list Route) (i0 : nat) (w : responseWriter (W := W))
    (r : http.Request) :
  (exists rt, rt ∈ rts /\ satisfies rt r = true) ->
  dispatch origin (rts ++ more) i0 w r = dispatch origin rts i0 w r.
Proof.
  revert i0. induction rts as [|rt rts IH]; intros i0 (rt0 & Hin & Hsat).
  - by apply elem_of_nil in Hin.
  - cbn [app dispatch].
    destruct (String.eqb (http.Method r) (method rt)) eqn:Hm; cbn [negb].
    + destruct (submatches rt (url.Path (http.URL r))) eqn:Hs; [done|].
      apply IH. apply elem_of_cons in Hin as [->|Hin]; [|by exists rt0].
      unfold satisfies in Hsat. rewrite Hs in Hsat. by rewrite andb_false_r in Hsat.
    + apply IH. apply elem_of_cons in Hin as [->|Hin]; [|by exists rt0].
      unfold satisfies in Hsat. by rewrite Hm in Hsat.
Qed.

(** Routes that do not satisfy the request are passed over. *)
Lemma dispatch_app_unserved (rts more : list Route) (i0 : nat) (w : responseWriter (W := W))
    (r : http.Request) :
  (forall rt, rt ∈ rts -> satisfies rt r = false) ->
  dispatch origin (rts ++ more) i0 w r = dispatch origin more (i0 + length rts) w r.
Proof.
  revert i0. induction rts as [|rt rts IH]; intros i0 Hnone.
  - cbn [app length]. by rewrite Nat.add_0_r.
  - cbn [app dispatch length].
    assert (Hrt : satisfies rt r = false) by (apply Hnone; by left).
    apply satisfies_false_iff in Hrt.
    replace (i0 + S (length rts))%nat with (S i0 + length rts)%nat by lia.
    destruct (String.eqb (http.Method r) (method rt)) eqn:Hm; cbn [negb].
    + destruct Hrt as [Hrt|Hrt]; [done|]. rewrite Hrt.
      apply IH. intros rt' Hin. apply Hnone. by right.
    + apply IH. intros rt' Hin. apply Hnone. by right.
Qed.

Lemma optionsStr_app_other (this : RouteMux) (rt : Route) (r : http.Request) :
  submatches rt (url.Path (http.URL r)) = None ->
  optionsStr {| routes := routes this ++ [rt]; Logging := Logging this |} r = optionsStr this r.
Proof.
  intros Hs. unfold optionsStr. cbn [routes]. rewrite !collectOptions_flat_map.
  rewrite flat_map_app. cbn [flat_map]. unfold contributes at 2. rewrite Hs.
  by rewrite !app_nil_r.
Qed.

Lemma AddRoute_appends (m pattern : string) (h : http.HandlerFunc) (this mux : RouteMux)
    (rt : Route) :
  AddRoute m pattern h this = Some (mux, rt) ->
  routes mux = routes this ++ [rt] /\ Logging mux = Logging this.
Proof.
  unfold AddRoute. destruct (replaceParams _ _ _) as [parts ps].
  destruct (regexp.Compile _); [|done]. by intros [= <- <-].
Qed.

(** X4. Registering a further route never takes a request away from the
    routes that were there: a request that an earlier route satisfies is
    dispatched to the same handler with the same request after [AddRoute]
    as before, and answered in the same way when its method is not
    OPTIONS; a request that no earlier route satisfies and the new route
    does is dispatched to the new route, the last of the table. *)
Theorem AddRoute_keeps_priority (m pattern : string) (h : http.HandlerFunc)
    (this mux : RouteMux) (rt : Route) (rw : W) (r : http.Request) :
  AddRoute m pattern h this = Some (mux, rt) ->
  ((exists rt0, rt0 ∈ routes this /\ satisfies rt0 r = true) ->
   invoked (ServeHTTP origin mux rw r) = invoked (ServeHTTP origin this rw r) /\
   (String.eqb (http.Method r) OPTIONS = false ->
    ServeHTTP origin mux rw r = ServeHTTP origin this rw r)) /\
  ((forall rt0, rt0 ∈ routes this -> satisfies rt0 r = false) ->
   forall ms, String.eqb (http.Method r) (method rt) = true ->
              submatches rt (url.Path (http.URL r)) = Some ms ->
              invoked (ServeHTTP origin mux rw r) =
                [(length (routes this), rewrite rt ms r)]).
Proof.
  intros Hadd.
  destruct (AddRoute_appends _ _ _ _ _ _ Hadd) as [Hroutes Hlog].
  split.
  - intros Hserved.
    assert (Hd : dispatch origin (routes mux) 0 (wrap rw) r =
                 dispatch origin (routes this) 0 (wrap rw) r).
    { rewrite Hroutes. by apply dispatch_app_served. }
    split.
    + by rewrite !ServeHTTP_invoked, Hd.
    + intros Hm. unfold ServeHTTP. rewrite Hd, Hlog.
      destruct (dispatch origin (routes this) 0 (wrap rw) r) as [[w1 r1] inv] eqn:Hdis.
      assert (Hm1 : http.Method r1 = http.Method r).
      { destruct (dispatch_cases origin (routes this) 0 (wrap rw) r)
          as [[Hd' _]|(k & rt' & ms & _ & _ & _ & _ & Hd')];
          rewrite Hd' in Hdis; by inversion Hdis. }
      by rewrite Hm1, Hm.
  - intros Hnone ms Hm Hs. rewrite ServeHTTP_invoked, Hroutes.
    rewrite dispatch_app_unserved by done.
    cbn [dispatch Nat.add]. rewrite Hm, Hs. reflexivity.
Qed.

End Priority.

Lemma AddRoute_keeps_priority_witness :
  let mux := Examples.table [Examples.byName; Examples.byId] in
  AddRoute (E := Mini.engine) GET "/user/:id" (Examples.say "by id")
    (Examples.table [Examples.byName]) = Some (mux, Examples.byId) /\
  invoked (Examples.serve mux (Examples.request GET "/user/bob" "")) =
    invoked (Examples.serve (Examples.table [Examples.byName])
               (Examples.request GET "/user/bob" "")) /\
  map fst (invoked (Examples.serve mux (Examples.request GET "/user/42" ""))) = [1%nat].
Proof.
  intros mux.
  assert (Hadd : AddRoute (E := Mini.engine) GET "/user/:id" (Examples.say "by id")
                   (Examples.table [Examples.byName]) = Some (mux, Examples.byId))
    by reflexivity.
  split; [exact Hadd|].
  destruct (AddRoute_keeps_priority "*" _ _ _ _ _ _ http.newResponse
              (Examples.request GET "/user/bob" "") Hadd) as [Hold _].
  destruct (AddRoute_keeps_priority "*" _ _ _ _ _ _ http.newResponse
              (Examples.request GET "/user/42" "") Hadd) as [_ Hnew].
  split.
  - apply Hold. exists Examples.byName. split; [by left|]. vm_compute. reflexivity.
  - unfold Examples.serve. rewrite (Hnew
      ltac:(intros rt0 Hin; apply list_elem_of_singleton in Hin; subst rt0;
            vm_compute; reflexivity)
      ["/user/42"; "42"] ltac:(vm_compute; reflexivity) ltac:(vm_compute; reflexivity)).
    reflexivity.
Defined.

(** ** What dispatch does to the request *)

Section RequestProperties.
Context {E : regexp.Engine}.
Variable origin : string.
Context {W : Type} {HW : http.ResponseWriter W}.

Let wrapper : http.ResponseWriter (responseWriter (W := W)) :=
  responseWriter_ResponseWriter origin.
Local Existing Instance wrapper.

Lemma ServeHTTP_served_r (this : RouteMux) (rw : W) (r : http.Request) :
  served_r (ServeHTTP origin this rw r) = (dispatch origin (routes this) 0 (wrap rw) r).1.2.
Proof.
  unfold ServeHTTP.
  by destruct (dispatch origin (routes this) 0 _ r) as [[w' r'] inv].
Qed.

(** X5. [ServeHTTP] changes nothing of the request but its raw query: the
    method, the path, the protocol, the headers and the remote address
    are those it came with. A request that no route serves is left
    untouched, and the request the router ends with is the one the handler
    was given. *)
Theorem ServeHTTP_request_frame (this : RouteMux) (rw : W) (r : http.Request) :
  let S := ServeHTTP origin this rw r in
  http.Method (served_r S) = http.Method r /\
  url.Path (http.URL (served_r S)) = url.Path (http.URL r) /\
  http.Proto (served_r S) = http.Proto r /\
  http.ReqHeader (served_r S) = http.ReqHeader r /\
  http.RemoteAddr (served_r S) = http.RemoteAddr r /\
  (invoked S = [] -> served_r S = r) /\
  Forall (fun '(i, r') => served_r S = r') (invoked S).
Proof.
  intros S. subst S. rewrite ServeHTTP_served_r, ServeHTTP_invoked.
  destruct (dispatch_cases origin (routes this) 0 (wrap rw) r)
    as [[Hd _]|(k & rt & ms & _ & _ & _ & _ & Hd)]; rewrite Hd; cbn [fst snd].
  - repeat split; first [done | by repeat constructor].
  - repeat split; first [done | by repeat constructor].
Qed.

Lemma addParams_kept (ps : gmap nat string) (i : nat) (ms : list string) (v : url.Values)
    (k : string) (l : list string) :
  v !! k = Some l -> exists added, addParams ps i ms v !! k = Some (l ++ added).
Proof.
  revert i v l. induction ms as [|m ms IH]; intros i v l Hl; cbn [addParams].
  - exists []. by rewrite app_nil_r.
  - destruct (decide (default EmptyString (ps !! i) = k)) as [Heq|Hne].
    + destruct (IH (S i) (url.Add (default EmptyString (ps !! i)) m v) (l ++ [m]))
        as [added Hadded].
      { unfold url.Add. rewrite Heq, lookup_insert_eq, Hl. reflexivity. }
      exists (m :: added). rewrite Hadded. by rewrite <- app_assoc.
    + apply IH. unfold url.Add. by rewrite lookup_insert_ne.
Qed.

Lemma addParams_other (ps : gmap nat string) (i : nat) (ms : list string) (v : url.Values)
    (k : string) :
  (forall n, (n < length ms)%nat -> default EmptyString (ps !! (i + n)%nat) <> k) ->
  addParams ps i ms v !! k = v !! k.
Proof.
  revert i v. induction ms as [|m ms IH]; intros i v Hk; cbn [addParams]; [done|].
  rewrite IH.
  - unfold url.Add. rewrite lookup_insert_ne; [done|].
    specialize (Hk 0%nat). rewrite Nat.add_0_r in Hk. apply Hk. cbn [length]. lia.
  - intros n Hn. replace (S i + n)%nat with (i + S n)%nat by lia. apply Hk.
    cbn [length]. lia.
Qed.

(** X6. A path parameter never replaces a query parameter: for every key
    of the request's query, the values the handler finds are the values
    that were there, in their order, followed by the sub-matches added
    under that key, so [Get] still gives the value of the query string; a
    key that is no parameter name of the route has exactly the values it
    had. *)
Theorem query_values_kept (this : RouteMux) (rw : W) (r : http.Request) :
  Forall (fun '(i, r') =>
            exists rt ms,
              routes this !! i = Some rt /\
              submatches rt (url.Path (http.URL r)) = Some ms /\
              (forall k l, url.Query (http.URL r) !! k = Some l ->
                           exists added, url.Query (http.URL r') !! k = Some (l ++ added)) /\
              (forall k, is_Some (url.Query (http.URL r) !! k) ->
                         url.Get k (url.Query (http.URL r')) =
                         url.Get k (url.Query (http.URL r))) /\
              (forall k, (forall n, (n < length (tl ms))%nat ->
                                    default EmptyString (params rt !! n) <> k) ->
                         url.Query (http.URL r') !! k = url.Query (http.URL r) !! k))
         (invoked (ServeHTTP origin this rw r)).
Proof.
  apply Forall_forall. intros [i r'] Hin.
  apply (invoked_rewrite origin) in Hin. destruct Hin as (rt & ms & Hrt & Hms & ->).
  exists rt, ms. split; [done|]. split; [done|]. rewrite Query_rewrite.
  split; [|split].
  - intros k l Hl. by apply addParams_kept.
  - intros k [l Hl].
    destruct (addParams_kept (params rt) 0 (tl ms) _ k l Hl) as [added Hadded].
    unfold url.Get. rewrite Hadded, Hl.
    destruct l as [|x l]; [|done].
    by apply no_empty_list_ParseQuery in Hl.
  - intros k Hk. by apply addParams_other.
Qed.

(** X7. The method of a route is compared as a text, and nothing stands
    in for another method: a request whose method no route carries (a HEAD
    request to a router with GET routes only, say, or [get] in small
    letters) is served by no handler and left untouched, and gets the
    not-found response unless its method is OPTIONS. *)
Theorem method_without_route (this : RouteMux) (rw : W) (r : http.Request) :
  (forall rt, rt ∈ routes this -> String.eqb (http.Method r) (method rt) = false) ->
  let S := ServeHTTP origin this rw r in
  invoked S = [] /\ served_r S = r /\
  (String.eqb (http.Method r) OPTIONS = false -> served_w S = http.NotFound (wrap rw)).
Proof.
  intros Hnone S. subst S.
  assert (Hd : dispatch origin (routes this) 0 (wrap rw) r = (wrap rw, r, [])).
  { destruct (dispatch_cases origin (routes this) 0 (wrap rw) r)
      as [[Hd _]|(k & rt & ms & _ & Hk & Hm & _ & _)]; [done|].
    apply list_elem_of_lookup_2 in Hk. apply Hnone in Hk. congruence. }
  rewrite ServeHTTP_invoked, ServeHTTP_served_r, Hd. split; [done|]. split; [done|].
  intros Hm. unfold ServeHTTP. rewrite Hd, Hm. reflexivity.
Qed.

(** X8. An OPTIONS request is never answered with not found: whatever the
    routes, the path and the handler that may have run, the wrapper ends
    with status 200 and [started] set, and this is the status logged. *)
Theorem OPTIONS_status_200 (this : RouteMux) (rw : W) (r : http.Request) :
  String.eqb (http.Method r) OPTIONS = true ->
  let S := ServeHTTP origin this rw r in
  status (served_w S) = http.StatusOK /\ started (served_w S) = true /\
  (exists w1 r1, served_w S = optionsRequest this w1 r1) /\
  (Logging this = true -> log_status <$> logged S = Some http.StatusOK).
Proof.
  intros Hm S. subst S. unfold ServeHTTP.
  destruct (dispatch_cases origin (routes this) 0 (wrap rw) r)
    as [[Hd _]|(k & rt & ms & _ & _ & _ & _ & Hd)]; rewrite Hd;
    cbn [served_w logged]; rewrite ?rewrite_Method, Hm.
  - repeat split; [by eexists _, _|]. by intros ->.
  - repeat split; [by eexists _, _|]. by intros ->.
Qed.

(** X9. The access log: nothing is logged when logging is off; when it is
    on, one entry carries the remote address, method, path, protocol,
    referrer and user agent of the request and the status and size the
    wrapper ends with. A request that no handler served and that is no
    OPTIONS request is logged with status 404 and size 19, the length of
    the not-found text. *)
Theorem access_log_entry (this : RouteMux) (rw : W) (r : http.Request) :
  let S := ServeHTTP origin this rw r in
  (Logging this = false -> logged S = None) /\
  (Logging this = true ->
   exists e, logged S = Some e /\
             log_addr e = http.RemoteAddr r /\ log_method e = http.Method r /\
             log_path e = url.Path (http.URL r) /\ log_proto e = http.Proto r /\
             log_referer e = http.Referer r /\ log_agent e = http.UserAgent r /\
             log_status e = status (served_w S) /\ log_size e = size (served_w S) /\
             (invoked S = [] -> String.eqb (http.Method r) OPTIONS = false ->
              log_status e = http.StatusNotFound /\ log_size e = 19)).
Proof.
  intros S. subst S. unfold ServeHTTP.
  destruct (dispatch_cases origin (routes this) 0 (wrap rw) r)
    as [[Hd _]|(k & rt & ms & _ & _ & _ & _ & Hd)]; rewrite Hd;
    cbn [served_w logged invoked].
  - split; [by intros ->|]. intros ->. eexists. split; [reflexivity|].
    cbn [log_addr log_method log_path log_proto log_referer log_agent log_status log_size].
    repeat split.
    all: match goal with Hm : String.eqb _ _ = false |- _ => rewrite Hm end; reflexivity.
  - split; [by intros ->|]. intros ->. eexists. split; [reflexivity|].
    cbn [log_addr log_method log_path log_proto log_referer log_agent log_status log_size].
    repeat split.
    all: match goal with Hnil : _ :: _ = [] |- _ => discriminate Hnil end.
Qed.

(** ** What the wrapper records *)

Lemma call_tracks (c : http.Call) (w : responseWriter (W := W)) :
  size (http.call w c) = match c with http.CallWrite p => GoStrings.len p | _ => size w end /\
  status (http.call w c) =
    match c with http.CallWriteHeader code => code | _ => status w end /\
  started (http.call w c) = started w || negb (headerCall c).
Proof. destruct c; cbn; by rewrite ?orb_true_r, ?orb_false_r. Qed.

(** X10. The wrapper records the last calls only: after any sequence of
    calls, [size] is the length of the last [Write] (not the sum of the
    writes), [status] is the code of the last [WriteHeader] (a [Write]
    leaves it alone), each as it was before when there was no such call;
    [started] is set exactly when it was set before or some [Write] or
    [WriteHeader] was made. *)
Theorem wrapper_tracks_last_calls (cs : list http.Call) (w : responseWriter (W := W)) :
  let w' := fold_left http.call cs w in
  size w' = match lastWrite cs with Some p => GoStrings.len p | None => size w end /\
  status w' = match lastStatus cs with Some code => code | None => status w end /\
  started w' = started w || existsb (fun c => negb (headerCall c)) cs.
Proof.
  revert w. induction cs as [|c cs IH]; intros w; cbn [fold_left lastWrite lastStatus existsb].
  - by rewrite orb_false_r.
  - destruct (IH (http.call w c)) as (Hsize & Hstatus & Hstarted).
    destruct (call_tracks c w) as (Hs1 & Hs2 & Hs3).
    rewrite Hsize, Hstatus, Hstarted, Hs1, Hs2, Hs3.
    split; [|split].
    + destruct (lastWrite cs); [done|]. by destruct c.
    + destruct (lastStatus cs); [done|]. by destruct c.
    + by rewrite orb_assoc.
Qed.

End RequestProperties.

Lemma method_without_route_witness :
  let S := Examples.serve Examples.plainMux (Examples.request HEAD "/user" "") in
  invoked S = [] /\ status (served_w S) = 404 /\
  optionsStr Examples.plainMux (Examples.request OPTIONS "/user" "") = "GET, HEAD, OPTIONS".
Proof.
  intros S. subst S.
  destruct (method_without_route (E := Mini.engine) "*" Examples.plainMux http.newResponse
              (Examples.request HEAD "/user" "")) as (Hinv & _ & Hnf).
  - intros rt Hrt. apply list_elem_of_singleton in Hrt. subst rt. vm_compute. reflexivity.
  - split; [exact Hinv|]. split.
    + unfold Examples.serve. rewrite Hnf by reflexivity. reflexivity.
    + vm_compute. reflexivity.
Defined.

Lemma OPTIONS_status_200_witness :
  let S := Examples.serve Examples.userMux (Examples.request OPTIONS "/nothing" "") in
  status (served_w S) = 200 /\ (log_status <$> logged S) = Some 200.
Proof.
  intros S. subst S.
  destruct (OPTIONS_status_200 (E := Mini.engine) "*" Examples.userMux http.newResponse
              (Examples.request OPTIONS "/nothing" "")) as (Hst & _ & _ & Hlog).
  - reflexivity.
  - split; [exact Hst|]. apply Hlog. reflexivity.
Defined.

(** ** The wrapper on the server's writer *)

Section SinkProperties.
Context {E : regexp.Engine}.
Variable origin : string.

Let wrapper : http.ResponseWriter (responseWriter (W := http.response)) :=
  responseWriter_ResponseWriter origin.
Local Existing Instance wrapper.

(** Once the header is sent, no call changes the status or the header
    block that went out. *)
Lemma sent_frozen (c : http.Call) (w : responseWriter (W := http.response)) :
  http.wroteHeader (writer w) = true ->
  http.wroteHeader (writer (http.call w c)) = true /\
  http.sentStatus (writer (http.call w c)) = http.sentStatus (writer w) /\
  http.sentHeader (writer (http.call w c)) = http.sentHeader (writer w).
Proof.
  destruct w as [[hh wh si ss sh sb] st sz stt]. cbn [writer http.wroteHeader].
  intros ->. destruct c; cbn; try done.
  unfold http.response_Write. cbn. by destruct (http.bodyAllowedForStatus ss).
Qed.

Lemma sent_frozen_calls (cs : list http.Call) (w : responseWriter (W := http.response)) :
  http.wroteHeader (writer w) = true ->
  http.wroteHeader (writer (fold_left http.call cs w)) = true /\
  http.sentStatus (writer (fold_left http.call cs w)) = http.sentStatus (writer w) /\
  http.sentHeader (writer (fold_left http.call cs w)) = http.sentHeader (writer w).
Proof.
  revert w. induction cs as [|c cs IH]; intros w Hw; cbn [fold_left]; [done|].
  destruct (sent_frozen c w Hw) as (H1 & H2 & H3).
  destruct (IH _ H1) as (H4 & H5 & H6). by rewrite H5, H6, H2, H3.
Qed.

(** Calls on the header map send nothing. *)
Lemma headerCalls_unsent (hdrs : list http.Call) (w : responseWriter (W := http.response)) :
  forallb headerCall hdrs = true ->
  http.wroteHeader (writer (fold_left http.call hdrs w)) = http.wroteHeader (writer w).
Proof.
  revert w. induction hdrs as [|c hdrs IH]; intros w Hh; cbn [fold_left]; [done|].
  cbn [forallb] in Hh. apply andb_true_iff in Hh as [Hc Hh]. rewrite IH by done.
  by destruct c.
Qed.

(** The first [Write] on an unsent response. *)
Lemma Write_unsent (p : string) (w : responseWriter (W := http.response)) :
  http.wroteHeader (writer w) = false ->
  http.wroteHeader (writer (http.Write p w)) = true /\
  http.sentStatus (writer (http.Write p w)) = http.StatusOK /\
  http.sentHeader (writer (http.Write p w)) =
    http.Set_ "Access-Control-Allow-Origin" origin
      (http.Set_ "Content-Length" (strconv.Itoa (GoStrings.len p))
         (http.handlerHeader (writer w))).
Proof.
  destruct w as [[hh wh si ss sh sb] st sz stt]. cbn [writer http.wroteHeader].
  intros ->. cbn -[http.Set_ strconv.Itoa GoStrings.len]. done.
Qed.

(** X11. When the header of the response is already sent, as after a
    handler that wrote, the OPTIONS aggregation changes nothing of what
    went out or goes out: the status, the header block and the body sent
    stay, [Public] is only stored in the header map, and the wrapper's own
    status becomes 200 whatever status was sent. *)
Theorem optionsRequest_after_send (this : RouteMux)
    (w : responseWriter (W := http.response)) (r : http.Request) :
  http.wroteHeader (writer w) = true ->
  let w' := optionsRequest this w r in
  http.sentStatus (writer w') = http.sentStatus (writer w) /\
  http.sentHeader (writer w') = http.sentHeader (writer w) /\
  http.sentBody (writer w') = http.sentBody (writer w) /\
  status w' = http.StatusOK /\
  http.handlerHeader (writer w') !! "Public" = Some [optionsStr this r].
Proof.
  destruct w as [[hh wh si ss sh sb] st sz stt]. cbn [writer http.wroteHeader].
  intros ->. cbn -[optionsStr insert lookup]. repeat split.
  unfold http.Set_. by rewrite lookup_insert_eq.
Qed.

(** X12. Whatever a handler puts in the header map beforehand, the first
    [Write] on a response that has sent nothing goes out with status 200,
    with [Content-Length] set to the length of that write and with
    [Access-Control-Allow-Origin] set to the package default: a handler
    cannot choose these two headers, and what it writes or sets later does
    not change them. *)
Theorem first_Write_stamps_headers (hdrs rest : list http.Call) (p : string)
    (rw : http.response) :
  http.wroteHeader rw = false ->
  forallb headerCall hdrs = true ->
  let w := fold_left http.call (hdrs ++ http.CallWrite p :: rest) (wrap rw) in
  http.sentStatus (writer w) = http.StatusOK /\
  http.sentHeader (writer w) !! "Content-Length" = Some [strconv.Itoa (GoStrings.len p)] /\
  http.sentHeader (writer w) !! "Access-Control-Allow-Origin" = Some [origin].
Proof.
  intros Hfresh Hhdrs w. subst w. rewrite fold_left_app. cbn [fold_left].
  set (w1 := fold_left http.call hdrs (wrap rw)).
  assert (Hw1 : http.wroteHeader (writer w1) = false).
  { subst w1. by rewrite headerCalls_unsent. }
  destruct (Write_unsent p w1 Hw1) as (Hsent & Hstatus & Hheader).
  destruct (sent_frozen_calls rest (http.call w1 (http.CallWrite p)) Hsent) as (_ & -> & ->).
  cbn [http.call]. rewrite Hstatus, Hheader. unfold http.Set_. repeat split.
  - rewrite lookup_insert_ne; [|done]. by rewrite lookup_insert_eq.
  - by rewrite lookup_insert_eq.
Qed.

Lemma started_calls (cs : list http.Call) (w : responseWriter (W := http.response)) :
  started w = true -> started (fold_left http.call cs w) = true.
Proof.
  revert w. induction cs as [|c cs IH]; intros w Hw; cbn [fold_left]; [done|].
  apply IH. by destruct c.
Qed.

Lemma status_without_WriteHeader (cs : list http.Call)
    (w : responseWriter (W := http.response)) :
  lastStatus cs = None -> status (fold_left http.call cs w) = status w.
Proof.
  revert w. induction cs as [|c cs IH]; intros w Hcs; cbn [fold_left]; [done|].
  cbn [lastStatus] in Hcs. destruct (lastStatus cs); [done|].
  rewrite IH by done. by destruct c.
Qed.

Lemma sent_by_Write (cs : list http.Call) (w : responseWriter (W := http.response)) :
  lastStatus cs = None -> is_Some (lastWrite cs) ->
  http.wroteHeader (writer w) = false ->
  started (fold_left http.call cs w) = true /\
  http.sentStatus (writer (fold_left http.call cs w)) = http.StatusOK.
Proof.
  revert w. induction cs as [|c cs IH]; intros w Hst Hwr Hw.
  - by destruct Hwr.
  - cbn [fold_left]. cbn [lastStatus] in Hst. cbn [lastWrite] in Hwr.
    destruct (lastStatus cs) eqn:Hst'; [done|].
    destruct c as [p|code|k v|k]; [|done| |].
    + destruct (Write_unsent p w Hw) as (Hsent & Hstatus & _).
      destruct (sent_frozen_calls cs (http.call w (http.CallWrite p)) Hsent) as (_ & -> & _).
      split; [|exact Hstatus]. by apply started_calls.
    + destruct (lastWrite cs) eqn:Hwr'; [|by destruct Hwr]. by apply IH.
    + destruct (lastWrite cs) eqn:Hwr'; [|by destruct Hwr]. by apply IH.
Qed.

(** X13. A served request whose handler writes but never calls
    [WriteHeader] goes out with status 200, yet the wrapper's status stays
    0, and 0 is the status in the access log: the implicit 200 of a
    [Write] is not recorded. *)
Theorem implicit_status_not_recorded (this : RouteMux) (rw : http.response)
    (r : http.Request) (i : nat) (rt : Route) :
  http.wroteHeader rw = false ->
  String.eqb (http.Method r) OPTIONS = false ->
  first_satisfying (routes this) r i ->
  routes this !! i = Some rt ->
  (forall r', lastStatus (handler rt r') = None /\ is_Some (lastWrite (handler rt r'))) ->
  let S := ServeHTTP origin this rw r in
  http.sentStatus (writer (served_w S)) = http.StatusOK /\
  status (served_w S) = 0 /\
  (Logging this = true -> log_status <$> logged S = Some 0).
Proof.
  intros Hfresh Hm Hfirst Hrt Hcalls S. subst S. unfold ServeHTTP.
  destruct (dispatch_cases origin (routes this) 0 (wrap rw) r)
    as [[_ Hall]|(k & rt' & ms & Hf & Hk & _ & _ & Hd)].
  - destruct Hfirst as [(rt0 & Hrt0 & Hsat) _]. specialize (Hall _ _ Hrt0). congruence.
  - assert (k = i) by (eapply first_satisfying_unique; eauto). subst k.
    rewrite Hrt in Hk. injection Hk as <-.
    rewrite Hd. cbn [served_w logged]. rewrite rewrite_Method, Hm.
    destruct (Hcalls (rewrite rt ms r)) as [Hst Hwr].
    destruct (sent_by_Write _ (wrap rw) Hst Hwr Hfresh) as [Hstarted Hsent].
    pose proof (status_without_WriteHeader _ (wrap rw) Hst) as Hstatus.
    change (fold_left http.call (handler rt (rewrite rt ms r)) (wrap rw))
      with (http.serve (handler rt) (wrap rw) (rewrite rt ms r)) in Hstarted, Hsent, Hstatus.
    unfold wrapper in Hstarted, Hsent, Hstatus.
    rewrite Hstarted. cbn [negb]. rewrite Hsent, Hstatus.
    repeat split. by intros ->.
Qed.

End SinkProperties.

Lemma optionsRequest_after_send_witness :
  let w := responseWriter_Write "*" "hi" (wrap http.newResponse) in
  let w' := optionsRequest (H := responseWriter_ResponseWriter "*") Examples.userMux w
              (Examples.request OPTIONS "/nothing" "") in
  http.sentStatus (writer w') = 200 /\ http.sentBody (writer w') = "hi" /\ status w' = 200.
Proof.
  intros w w'. subst w'.
  destruct (optionsRequest_after_send (E := Mini.engine) "*" Examples.userMux w
              (Examples.request OPTIONS "/nothing" "")) as (Hst & _ & Hb & Hs & _).
  - reflexivity.
  - split; [rewrite Hst; reflexivity|]. split; [rewrite Hb; reflexivity|exact Hs].
Defined.

Lemma first_Write_stamps_headers_witness :
  let w := fold_left (http.call (H := responseWriter_ResponseWriter "*"))
             ([http.CallHeaderSet "Content-Length" "99";
               http.CallHeaderSet "Access-Control-Allow-Origin" "https://example.org"]
              ++ http.CallWrite "hello" :: [http.CallWrite ", world"])
             (wrap http.newResponse) in
  http.sentStatus (writer w) = 200 /\
  http.sentHeader (writer w) !! "Content-Length" = Some ["5"] /\
  http.sentHeader (writer w) !! "Access-Control-Allow-Origin" = Some ["*"].
Proof.
  apply (first_Write_stamps_headers "*"
           [http.CallHeaderSet "Content-Length" "99";
            http.CallHeaderSet "Access-Control-Allow-Origin" "https://example.org"]
           [http.CallWrite ", world"] "hello" http.newResponse); reflexivity.
Defined.

Lemma implicit_status_not_recorded_witness :
  let S := Examples.serve Examples.plainMux (Examples.request GET "/user" "") in
  http.sentStatus (writer (served_w S)) = 200 /\
  status (served_w S) = 0 /\
  log_status <$> logged S = Some 0.
Proof.
  intros S. subst S.
  destruct (implicit_status_not_recorded (E := Mini.engine) "*" Examples.plainMux
              http.newResponse (Examples.request GET "/user" "") 0 Examples.plainRoute)
    as (Hsent & Hst & Hlog).
  - reflexivity.
  - reflexivity.
  - split.
    + exists Examples.plainRoute. split; [reflexivity|]. vm_compute. reflexivity.
    + intros j rt Hj. inversion Hj.
  - reflexivity.
  - intros r'. split; [reflexivity|]. by eexists.
  - split; [exact Hsent|]. split; [exact Hst|]. apply Hlog. reflexivity.
Defined.

(** ** Registration in sequence *)

Section Registrations.
Context {E : regexp.Engine}.

Lemma registerAll_routes (regs : list (string * string * http.HandlerFunc))
    (this mux : RouteMux) :
  registerAll regs this = Some mux ->
  Logging mux = Logging this /\
  exists added, routes mux = routes this ++ added /\
                map method added = map (fun reg => reg.1.1) regs /\
                map handler added = map snd regs.
Proof.
  revert this. induction regs as [|[[m pattern] h] regs IH]; intros this Hreg.
  - injection Hreg as <-. split; [done|]. exists []. by rewrite app_nil_r.
  - cbn [registerAll] in Hreg.
    destruct (AddRoute m pattern h this) as [[mux1 rt]|] eqn:Hadd; [|done].
    destruct (IH _ Hreg) as (Hlog & added & Hroutes & Hm & Hh).
    pose proof Hadd as Happ. apply AddRoute_appends in Happ as [Hr1 Hl1].
    split; [congruence|]. exists (rt :: added).
    rewrite Hroutes, Hr1, <- app_assoc. split; [done|].
    unfold AddRoute in Hadd. destruct (replaceParams _ _ _) as [parts ps].
    destruct (regexp.Compile _); [|done]. injection Hadd as _ <-.
    cbn [map method handler fst snd]. by rewrite Hm, Hh.
Qed.

(** X14. A router made by [New] logs, and keeps logging through the
    registrations; after a sequence of registrations that all succeed its
    table holds one route for each call, in the order of the calls, with
    the method and the handler of the call. *)
Theorem registrations_in_order (regs : list (string * string * http.HandlerFunc))
    (mux : RouteMux) :
  registerAll regs New = Some mux ->
  Logging mux = true /\
  map method (routes mux) = map (fun reg => reg.1.1) regs /\
  map handler (routes mux) = map snd regs.
Proof.
  intros Hreg. apply registerAll_routes in Hreg as (Hlog & added & Hroutes & Hm & Hh).
  cbn [New routes Logging app] in *. by rewrite Hroutes.
Qed.

End Registrations.

Lemma registrations_in_order_witness :
  let mux := Examples.table [Examples.byName; Examples.byId] in
  registerAll (E := Mini.engine)
    [(GET, "/user/:name([a-z]+)", Examples.say "by name");
     (GET, "/user/:id", Examples.say "by id")] New = Some mux /\
  Logging mux = true /\ map method (routes mux) = [GET; GET].
Proof.
  intros mux.
  assert (Hreg : registerAll (E := Mini.engine)
                   [(GET, "/user/:name([a-z]+)", Examples.say "by name");
                    (GET, "/user/:id", Examples.say "by id")] New = Some mux)
    by reflexivity.
  split; [exact Hreg|].
  destruct (registrations_in_order _ _ Hreg) as (Hlog & Hm & _).
  split; [exact Hlog|exact Hm].
Defined.

(** ** The helpers on the router's writer *)

Section FormattedProperties.
Variable origin : string.
Context {V : Type}.
Variable jsonMarshalIndent : V -> string + string.
Variable xmlMarshal : V -> string + string.

Let wrapper : http.ResponseWriter (responseWriter (W := http.response)) :=
  responseWriter_ResponseWriter origin.
Local Existing Instance wrapper.

(** A [Write] of the wrapper followed by [Header().Set("Content-Type", _)],
    on a response that has sent nothing. *)
Lemma Write_then_content_type (content ctype : string) (rw : http.response) :
  http.wroteHeader rw = false ->
  let w := http.updHeader (http.Set_ "Content-Type" ctype) (http.Write content (wrap rw)) in
  http.sentStatus (writer w) = http.StatusOK /\
  http.sentBody (writer w) = http.sentBody rw +:+ content /\
  http.sentHeader (writer w) !! "Content-Length" = Some [strconv.Itoa (GoStrings.len content)] /\
  http.sentHeader (writer w) !! "Content-Type" = http.handlerHeader rw !! "Content-Type" /\
  http.handlerHeader (writer w) !! "Content-Type" = Some [ctype] /\
  size w = GoStrings.len content.
Proof.
  destruct rw as [hh wh si ss sh sb]. cbn [http.wroteHeader]. intros ->.
  cbn -[http.Set_ strconv.Itoa GoStrings.len insert lookup]. unfold http.Set_.
  repeat split.
  - rewrite lookup_insert_ne; [|done]. by rewrite lookup_insert_eq.
  - rewrite lookup_insert_ne; [|done]. by rewrite lookup_insert_ne.
  - by rewrite lookup_insert_eq.
Qed.

(** X15. When the resource is encoded, [ServeFormatted] (and so [ServeJson]
    and [ServeXml], one of which it calls) on the router's writer sends
    status 200 and the content with its length in [Content-Length], but
    not the content type it names: the header [Content-Type] is set after
    the write, so what is sent is the [Content-Type] that was in the
    header map before the call, or none. *)
Theorem ServeFormatted_content_type_unsent (rw : http.response) (r : http.Request) (v : V)
    (cj cx : string) :
  http.wroteHeader rw = false ->
  jsonMarshalIndent v = inl cj -> xmlMarshal v = inl cx ->
  let w := ServeFormatted jsonMarshalIndent xmlMarshal (wrap rw) r v in
  exists content ctype,
    (content = cj /\ ctype = applicationJson \/
     content = cx /\ ctype = "text/xml; charset=utf-8") /\
    http.sentStatus (writer w) = http.StatusOK /\
    http.sentBody (writer w) = http.sentBody rw +:+ content /\
    http.sentHeader (writer w) !! "Content-Length" = Some [strconv.Itoa (GoStrings.len content)] /\
    http.sentHeader (writer w) !! "Content-Type" = http.handlerHeader rw !! "Content-Type" /\
    http.handlerHeader (writer w) !! "Content-Type" = Some [ctype] /\
    size w = GoStrings.len content.
Proof.
  intros Hfresh Hj Hx w. subst w. unfold ServeFormatted, ServeJson, ServeXml.
  rewrite Hj, Hx.
  destruct (String.eqb _ applicationJson);
    [|destruct (String.eqb _ applicationXml || String.eqb _ textXml)].
  - exists cj, applicationJson. split; [by left|]. by apply Write_then_content_type.
  - exists cx, "text/xml; charset=utf-8". split; [by right|]. by apply Write_then_content_type.
  - exists cj, applicationJson. split; [by left|]. by apply Write_then_content_type.
Qed.

(** [http.Error] with status 500 on the wrapper over a response that has
    sent nothing. *)
Lemma Error_unsent (err : string) (rw : http.response) :
  http.wroteHeader rw = false ->
  let w := http.Error (wrap rw) err http.StatusInternalServerError in
  http.sentStatus (writer w) = http.StatusInternalServerError /\
  status w = http.StatusInternalServerError /\
  http.sentBody (writer w) = http.sentBody rw +:+ (err +:+ String "010" EmptyString) /\
  size w = GoStrings.len (err +:+ String "010" EmptyString) /\
  http.sentHeader (writer w) !! "Content-Type" = Some ["text/plain; charset=utf-8"] /\
  http.sentHeader (writer w) !! "Content-Length" = None /\
  http.sentHeader (writer w) !! "Access-Control-Allow-Origin" =
    http.handlerHeader rw !! "Access-Control-Allow-Origin".
Proof.
  destruct rw as [hh wh si ss sh sb]. cbn [http.wroteHeader]. intros ->.
  cbn -[http.Set_ strconv.Itoa GoStrings.len insert lookup delete String.append].
  unfold http.Set_. repeat split.
  - rewrite lookup_insert_ne; [|done]. by rewrite lookup_insert_eq.
  - rewrite lookup_insert_ne; [|done]. rewrite lookup_insert_ne; [|done].
    by rewrite lookup_delete_eq.
  - rewrite lookup_insert_ne; [|done]. rewrite lookup_insert_ne; [|done].
    by rewrite lookup_delete_ne.
Qed.

(** X16. When the encoder fails, [ServeFormatted] (through [ServeJson] or
    [ServeXml]) on the router's writer answers with status 500 and the
    text of the error and a newline as plain text; the wrapper records 500
    and the length of that line. The header block that is sent carries no
    [Content-Length], and no [Access-Control-Allow-Origin] but the one that
    was in the header map before: the wrapper sets both after the header
    is sent. *)
Theorem ServeFormatted_marshal_error (rw : http.response) (r : http.Request) (v : V)
    (ej ex : string) :
  http.wroteHeader rw = false ->
  jsonMarshalIndent v = inr ej -> xmlMarshal v = inr ex ->
  let w := ServeFormatted jsonMarshalIndent xmlMarshal (wrap rw) r v in
  exists err,
    (err = ej \/ err = ex) /\
    http.sentStatus (writer w) = http.StatusInternalServerError /\
    status w = http.StatusInternalServerError /\
    http.sentBody (writer w) = http.sentBody rw +:+ (err +:+ String "010" EmptyString) /\
    size w = GoStrings.len (err +:+ String "010" EmptyString) /\
    http.sentHeader (writer w) !! "Content-Type" = Some ["text/plain; charset=utf-8"] /\
    http.sentHeader (writer w) !! "Content-Length" = None /\
    http.sentHeader (writer w) !! "Access-Control-Allow-Origin" =
      http.handlerHeader rw !! "Access-Control-Allow-Origin".
Proof.
  intros Hfresh Hj Hx w. subst w. unfold ServeFormatted, ServeJson, ServeXml.
  rewrite Hj, Hx.
  destruct (String.eqb _ applicationJson);
    [|destruct (String.eqb _ applicationXml || String.eqb _ textXml)].
  - exists ej. split; [by left|]. by apply Error_unsent.
  - exists ex. split; [by right|]. by apply Error_unsent.
  - exists ej. split; [by left|]. by apply Error_unsent.
Qed.

End FormattedProperties.

Lemma ServeFormatted_content_type_unsent_witness :
  let w := ServeFormatted (HW := responseWriter_ResponseWriter "*")
             (fun _ : unit => inl "{}") (fun _ : unit => inl "<v/>")
             (wrap http.newResponse) (Examples.request GET "/" "") tt in
  http.sentStatus (writer w) = 200 /\
  http.sentHeader (writer w) !! "Content-Type" = None.
Proof.
  intros w. subst w.
  destruct (ServeFormatted_content_type_unsent "*"
              (fun _ : unit => inl "{}") (fun _ : unit => inl "<v/>")
              http.newResponse (Examples.request GET "/" "") tt "{}" "<v/>")
    as (content & ctype & _ & Hst & _ & _ & Hct & _).
  - reflexivity.
  - reflexivity.
  - reflexivity.
  - split; [exact Hst|]. rewrite Hct. reflexivity.
Defined.

Lemma ServeFormatted_marshal_error_witness :
  let w := ServeFormatted (HW := responseWriter_ResponseWriter "*")
             (fun _ : unit => inr "json: unsupported type")
             (fun _ : unit => inr "xml: unsupported type")
             (wrap http.newResponse) (Examples.request GET "/" "") tt in
  http.sentStatus (writer w) = 500 /\
  http.sentHeader (writer w) !! "Access-Control-Allow-Origin" = None.
Proof.
  intros w. subst w.
  destruct (ServeFormatted_marshal_error "*"
              (fun _ : unit => inr "json: unsupported type")
              (fun _ : unit => inr "xml: unsupported type")
              http.newResponse (Examples.request GET "/" "") tt
              "json: unsupported type" "xml: unsupported type")
    as (err & _ & Hst & _ & _ & _ & _ & _ & Hac).
  - reflexivity.
  - reflexivity.
  - reflexivity.
  - split; [exact Hst|]. rewrite Hac. reflexivity.
Defined.
